(** * aragon-cli: the [dao install] and [dao token new] task pipelines

    A shallow embedding of the task builders ([exports.task]) of the
    [install] command and of [token_cmds/new.js], together with the
    pipeline runner they hand their steps to, and the properties of the
    specification checked against them.

    Calls that leave the process (the kernel contract, the APM client, the
    ENS resolver, web3, the transaction executor) are fields of an
    environment record: each returns a value or throws, as the environment
    decides. A step body is a function of the state it can touch: the
    shared context object, its own task handle, and the list of requests
    sent so far. *)

From Stdlib Require Import String Ascii List ZArith Bool Arith Lia.
Import ListNotations.
Local Open Scope string_scope.
Local Open Scope list_scope.

(** ** JavaScript values the two commands handle *)

Module JS.

(** An [Error] object: its constructor name and its message. *)
Record Error : Type := mkError { err_name : string; err_message : string }.

Definition new_Error (msg : string) : Error := mkError "Error" msg.
Definition new_TypeError (msg : string) : Error := mkError "TypeError" msg.

(** The values that reach a transaction's argument list. *)
Inductive Val : Type :=
| VUndefined
| VBool (b : bool)
| VNum (n : Z)
| VStr (s : string).

(** A property that is either absent ([undefined]) or a string. *)
Definition of_opt (o : option string) : Val :=
  match o with Some s => VStr s | None => VUndefined end.

(** ToBoolean. *)
Definition truthy (v : Val) : bool :=
  match v with
  | VUndefined => false
  | VBool b => b
  | VNum n => negb (n =? 0)%Z
  | VStr s => negb (s =? "")
  end.

(** [a || b] on string-or-undefined operands. *)
Definition or_else (a b : option string) : option string :=
  if truthy (of_opt a) then a else b.

(** A string-or-undefined value inside a template literal. *)
Definition template (o : option string) : string :=
  match o with Some s => s | None => "undefined" end.

(** [Array.prototype.join] on strings. *)
Fixpoint join (sep : string) (l : list string) : string :=
  match l with
  | [] => ""
  | [x] => x
  | x :: rest => x ++ sep ++ join sep rest
  end.

(** [String.prototype.toLowerCase] as it acts on strings of ASCII
    characters, which the hexadecimal addresses compared by the commands
    are: the letters A to Z are mapped, every other character is kept.
    On other strings the real function also maps letters outside ASCII
    and may change the length. *)
Definition lower_ascii (c : ascii) : ascii :=
  let n := nat_of_ascii c in
  if ((65 <=? n) && (n <=? 90))%nat then ascii_of_nat (n + 32) else c.

Fixpoint toLowerCase (s : string) : string :=
  match s with
  | EmptyString => EmptyString
  | String c r => String (lower_ascii c) (toLowerCase r)
  end.

(** [s.includes(sub)]. *)
Fixpoint includes (sub s : string) : bool :=
  prefix sub s ||
  match s with
  | EmptyString => false
  | String _ r => includes sub r
  end.

(** The character class [[a-fA-F0-9]]. *)
Definition is_hex (c : ascii) : bool :=
  let n := nat_of_ascii c in
  (((97 <=? n) && (n <=? 102)) ||
   ((65 <=? n) && (n <=? 70)) ||
   ((48 <=? n) && (n <=? 57)))%nat.

(** [[a-fA-F0-9]{n}] matched at the head of [s]. *)
Fixpoint hex_run (n : nat) (s : string) : bool :=
  match n with
  | O => true
  | S n' =>
      match s with
      | EmptyString => false
      | String c r => is_hex c && hex_run n' r
      end
  end.

(** [0x[a-fA-F0-9]{40}] matched at the head of [s]. *)
Definition address_here (s : string) : bool :=
  match s with
  | String c1 (String c2 r) =>
      (c1 =? "0")%char && (c2 =? "x")%char && hex_run 40 r
  | _ => false
  end.

(** [/0x[a-fA-F0-9]{40}/.test(s)]: the pattern has no anchor, so the
    match may start at any position. *)
Fixpoint address_re_test (s : string) : bool :=
  address_here s ||
  match s with
  | EmptyString => false
  | String _ r => address_re_test r
  end.

End JS.
Import JS.

(** ** The pipeline runner *)

Module Listr.

(** What an [await]ed call or a step's body ends in. *)
Inductive Outcome (A : Type) : Type :=
| Returned (a : A)
| Thrown (e : Error).
Arguments Returned {A} a.
Arguments Thrown {A} e.

Section Runner.
Variables (Ctx Eff : Type).

(** What a step's body can touch: the shared context object, its own
    task handle ([task.skip], [task.output]) and the outside world,
    kept as the list of requests sent so far (latest last). *)
Record TaskState : Type := mkTaskState {
  ts_ctx : Ctx;
  ts_skipped : option string;
  ts_output : option string;
  ts_effects : list Eff
}.

(** A step body: state passing where a throw keeps the mutations made
    before it, as a JavaScript exception does. *)
Definition Task (A : Type) : Type := TaskState -> Outcome A * TaskState.

Definition ret {A} (a : A) : Task A := fun st => (Returned a, st).

Definition bind {A B} (m : Task A) (k : A -> Task B) : Task B :=
  fun st =>
    match m st with
    | (Returned a, st') => k a st'
    | (Thrown e, st') => (Thrown e, st')
    end.

Definition throw {A} (e : Error) : Task A := fun st => (Thrown e, st).

(** [await] of a call whose outcome the environment decides. *)
Definition await {A} (o : Outcome A) : Task A := fun st => (o, st).

Definition get_ctx : Task Ctx := fun st => (Returned (ts_ctx st), st).

Definition modify_ctx (f : Ctx -> Ctx) : Task unit :=
  fun st =>
    (Returned tt,
     mkTaskState (f (ts_ctx st)) (ts_skipped st) (ts_output st) (ts_effects st)).

(** [task.skip(msg)]: marks the handle; the body goes on to its
    [return]. *)
Definition skip (msg : string) : Task unit :=
  fun st =>
    (Returned tt,
     mkTaskState (ts_ctx st) (Some msg) (ts_output st) (ts_effects st)).

(** [task.output = msg]. *)
Definition set_output (msg : string) : Task unit :=
  fun st =>
    (Returned tt,
     mkTaskState (ts_ctx st) (ts_skipped st) (Some msg) (ts_effects st)).

Definition emit (e : Eff) : Task unit :=
  fun st =>
    (Returned tt,
     mkTaskState (ts_ctx st) (ts_skipped st) (ts_output st) (ts_effects st ++ [e])).

(** A declared step. [enabled] is optional. *)
Record Step : Type := mkStep {
  title : string;
  enabled : option (Ctx -> bool);
  task : Task unit
}.

Definition is_enabled (s : Step) (ctx : Ctx) : bool :=
  match enabled s with
  | Some f => f ctx
  | None => true
  end.

Inductive Status : Type :=
| Disabled
| Completed
| Skipped (msg : string)
| Failed (e : Error).

(** One visited step: what the runner did with it, the context it
    found and the context it left. *)
Record Entry : Type := mkEntry {
  en_title : string;
  en_status : Status;
  en_before : Ctx;
  en_after : Ctx;
  en_effects : list Eff
}.

(** One run: the visited steps in the order the runner reached them,
    the context at the end, and the rejection, if any. *)
Record Run : Type := mkRun {
  run_log : list Entry;
  run_ctx : Ctx;
  run_rejected : option Error
}.

Definition start (ctx : Ctx) : TaskState := mkTaskState ctx None None [].

Definition status_of (st : TaskState) : Status :=
  match ts_skipped st with
  | Some msg => Skipped msg
  | None => Completed
  end.

Definition logged (en : Entry) (r : Run) : Run :=
  mkRun (en :: run_log r) (run_ctx r) (run_rejected r).

(** Modelled from the spec: the [listr] package and the options built
    by [helpers/listr-options] are not part of the sources at hand;
    this is the runner of section 4.1. Steps are visited in order;
    a step whose [enabled] predicate is false on the current context
    is passed over; a step that throws ends the run, which rejects
    with the thrown error; otherwise the next step sees the context
    the step left. *)
Fixpoint run_steps (steps : list Step) (ctx : Ctx) : Run :=
  match steps with
  | [] => mkRun [] ctx None
  | s :: rest =>
      if is_enabled s ctx then
        match task s (start ctx) with
        | (Returned _, st) =>
            logged (mkEntry (title s) (status_of st) ctx (ts_ctx st) (ts_effects st))
                   (run_steps rest (ts_ctx st))
        | (Thrown e, st) =>
            mkRun [mkEntry (title s) (Failed e) ctx (ts_ctx st) (ts_effects st)]
                  (ts_ctx st) (Some e)
        end
      else
        logged (mkEntry (title s) Disabled ctx ctx []) (run_steps rest ctx)
  end.

End Runner.

Arguments mkTaskState {Ctx Eff}.
Arguments ts_ctx {Ctx Eff}.
Arguments ts_skipped {Ctx Eff}.
Arguments ts_output {Ctx Eff}.
Arguments ts_effects {Ctx Eff}.
Arguments ret {Ctx Eff A}.
Arguments bind {Ctx Eff A B}.
Arguments throw {Ctx Eff A}.
Arguments await {Ctx Eff A}.
Arguments get_ctx {Ctx Eff}.
Arguments modify_ctx {Ctx Eff}.
Arguments skip {Ctx Eff}.
Arguments set_output {Ctx Eff}.
Arguments emit {Ctx Eff}.
Arguments mkStep {Ctx Eff}.
Arguments title {Ctx Eff}.
Arguments enabled {Ctx Eff}.
Arguments task {Ctx Eff}.
Arguments is_enabled {Ctx Eff}.
Arguments mkEntry {Ctx Eff}.
Arguments en_title {Ctx Eff}.
Arguments en_status {Ctx Eff}.
Arguments en_before {Ctx Eff}.
Arguments en_after {Ctx Eff}.
Arguments en_effects {Ctx Eff}.
Arguments mkRun {Ctx Eff}.
Arguments run_log {Ctx Eff}.
Arguments run_ctx {Ctx Eff}.
Arguments run_rejected {Ctx Eff}.
Arguments start {Ctx Eff}.
Arguments status_of {Ctx Eff}.
Arguments logged {Ctx Eff}.
Arguments run_steps {Ctx Eff}.

Declare Scope task_scope.
Delimit Scope task_scope with task.
Notation "x <- m ;; k" := (bind m (fun x => k))
  (at level 61, m at next level, right associativity) : task_scope.
Notation "m ;; k" := (bind m (fun _ => k))
  (at level 61, right associativity) : task_scope.

End Listr.

(** ** [dao install] *)

Module Install.
Import Listr.
Local Open Scope task_scope.

Record AbiInput : Type := mkAbiInput { input_name : string; input_type : string }.

Record AbiEntry : Type := mkAbiEntry {
  abi_type : string;
  abi_name : string;
  abi_inputs : list AbiInput
}.

(** A role of [arapp.json]. *)
Record Role : Type := mkRole { role_id : string; role_bytes : string }.

(** What the repo resolver hands back; [roles] may be missing. *)
Record Repo : Type := mkRepo {
  appId : string;
  contractAddress : string;
  abi : list AbiEntry;
  roles : option (list Role)
}.

Record Log : Type := mkLog { topics : list string; address : string; data : string }.

Record Receipt : Type := mkReceipt { logs : list Log }.

(** The context object of one run; every property starts out absent.
    [notInitialized] is only ever absent or [true]. *)
Record Ctx : Type := mkCtx {
  repo : option Repo;
  receipt : option Receipt;
  notInitialized : bool;
  appAddress : option string;
  accounts : option (list string)
}.

Definition empty_ctx : Ctx := mkCtx None None false None None.

Definition set_repo (r : Repo) (c : Ctx) : Ctx :=
  mkCtx (Some r) (receipt c) (notInitialized c) (appAddress c) (accounts c).
Definition set_receipt (r : Receipt) (c : Ctx) : Ctx :=
  mkCtx (repo c) (Some r) (notInitialized c) (appAddress c) (accounts c).
Definition set_notInitialized (b : bool) (c : Ctx) : Ctx :=
  mkCtx (repo c) (receipt c) b (appAddress c) (accounts c).
Definition set_appAddress (a : option string) (c : Ctx) : Ctx :=
  mkCtx (repo c) (receipt c) (notInitialized c) a (accounts c).
Definition set_accounts (a : list string) (c : Ctx) : Ctx :=
  mkCtx (repo c) (receipt c) (notInitialized c) (appAddress c) (Some a).

(** The two ways the steps ask the wrapper for a transaction path. *)
Inductive TxPath : Type :=
| getTransactionPath (destination method : string) (fnArgs : list Val)
| getACLTransactionPath (method : string) (params : list Val).

(** Requests that leave the process. *)
Inductive Effect : Type :=
| ExecTask (dao : string) (path : TxPath)
| GetAccounts.

(** The transactions among the requests made, in the order made. *)
Definition transactions (l : list Effect) : list (string * TxPath) :=
  flat_map (fun e => match e with ExecTask d p => [(d, p)] | GetAccounts => [] end) l.

(** The collaborators the command requires and does not define: the
    constants of [util], the kernel ABI, web3, the APM client, the ENS
    resolver and the transaction executor. *)
Record Env : Type := mkEnv {
  ANY_ENTITY : string;
  NO_MANAGER : string;
  ZERO_ADDRESS : string;
  kernelABI : list AbiEntry;
  sha3 : string -> string;
  (* the decoded log as an object: property name to value *)
  decodeLog : list AbiInput -> string -> string -> option string;
  encodeInitPayload : list AbiEntry -> string -> list string -> Outcome string;
  defaultAPMName : string -> string;
  chalk_bold : string -> string;
  resolveEnsDomain : string -> Outcome string;
  (* kernel.methods at a DAO address *)
  APP_BASES_NAMESPACE : string -> Outcome string;
  getApp : string -> string -> string -> Outcome string;
  (* apm.getLatestVersion / apm.getVersion *)
  getRepo : string -> option string -> Outcome Repo;
  execTask : string -> TxPath -> Outcome Receipt;
  getAccounts : Outcome (list string);
  (* await APM(web3, apmOptions): building the client *)
  APM : Outcome unit;
  (* new web3.eth.Contract(Kernel abi, address) *)
  Contract : string -> Outcome unit
}.

(** The command's arguments that the steps read. *)
Record Args : Type := mkArgs {
  dao : string;
  apmRepo : string;
  apmRepoVersion : option string;
  appInit : string;
  appInitArgs : list string;
  setPermissions : option string
}.

Definition addressesEqual (a b : string) : bool :=
  toLowerCase a =? toLowerCase b.

(** [Promise.all] over calls already made: every call is started, the
    result rejects when one of them does. Which rejection wins is a
    matter of timing; the model reports the first in list order. *)
Fixpoint promise_all {A : Type} (l : list (Task Ctx Effect A)) : Task Ctx Effect (list A) :=
  match l with
  | [] => ret []
  | t :: rest =>
      fun st =>
        match t st with
        | (Returned a, st1) =>
            match promise_all rest st1 with
            | (Returned r, st2) => (Returned (a :: r), st2)
            | (Thrown e, st2) => (Thrown e, st2)
            end
        | (Thrown e, st1) => (Thrown e, snd (promise_all rest st1))
        end
  end.

Section Tasks.
Variable env : Env.

(** Modelled from the spec: [utils/execHandler] is not part of the
    sources at hand. The transaction executor builds, signs and submits
    the transaction of the given path and returns its receipt. *)
Definition execHandler_task (dao : string) (path : TxPath) : Task Ctx Effect Receipt :=
  emit (ExecTask dao path) ;;
  await (execTask env dao path).

(** Modelled from the spec: [utils/getRepoTask] is not part of the
    sources at hand. The repo resolver, given a package name and
    version, returns the repo, which the step stores as [ctx.repo]. *)
Definition getRepoTask_task (apmRepo : string) (apmRepoVersion : option string)
  : Task Ctx Effect unit :=
  r <- await (getRepo env apmRepo apmRepoVersion) ;;
  modify_ctx (set_repo r).

Definition version_mismatch_message (apmRepo currentBase : string) : string :=
  "Cannot install app on a different version. Currently installed version for "
  ++ apmRepo ++ " in the DAO is " ++ currentBase
  ++ String "010"%char
       " Please upgrade using 'dao upgrade' first or install a different version.".

Definition checking_installed_version (dao apmRepo : string) : Task Ctx Effect unit :=
  basesNamespace <- await (APP_BASES_NAMESPACE env dao) ;;
  ctx <- get_ctx ;;
  match repo ctx with
  | None => throw (new_TypeError "Cannot read property 'appId' of undefined")
  | Some r =>
      currentBase <- await (getApp env dao basesNamespace (appId r)) ;;
      if currentBase =? ZERO_ADDRESS env then
        skip ("Installing the first instance of " ++ apmRepo ++ " in DAO")
      else if negb (addressesEqual currentBase (contractAddress r)) then
        throw (new_Error (version_mismatch_message apmRepo currentBase))
      else ret tt
  end.

Definition deploying_app_instance (dao : string) (a : Args) : Task Ctx Effect unit :=
  ctx <- get_ctx ;;
  match repo ctx with
  | None => throw (new_TypeError "Cannot read property 'abi' of undefined")
  | Some r =>
      initPayload <- await (encodeInitPayload env (abi r) (appInit a) (appInitArgs a)) ;;
      (if initPayload =? "0x" then modify_ctx (set_notInitialized true) else ret tt) ;;
      let fnArgs :=
        [VStr (appId r); VStr (contractAddress r); VStr initPayload; VBool false] in
      rc <- execHandler_task dao (getTransactionPath dao "newAppInstance" fnArgs) ;;
      modify_ctx (set_receipt rc)
  end.

Definition is_NewAppProxy (e : AbiEntry) : bool :=
  (abi_type e =? "event") && (abi_name e =? "NewAppProxy").

Definition logSignature (logABI : AbiEntry) : string :=
  abi_name logABI ++ "(" ++ join "," (map input_type (abi_inputs logABI)) ++ ")".

(** The predicate handed to [ctx.receipt.logs.find]. *)
Definition is_deploy_log (dao logTopic : string) (l : Log) : bool :=
  match topics l with
  | t :: _ => (t =? logTopic) && addressesEqual dao (address l)
  | [] => false
  end.

Definition fetching_deployed_app (dao : string) : Task Ctx Effect unit :=
  match find is_NewAppProxy (kernelABI env) with
  | None => throw (new_Error "Kernel ABI in aragon.js doesnt contain NewAppProxy log")
  | Some logABI =>
      let logTopic := sha3 env (logSignature logABI) in
      ctx <- get_ctx ;;
      match receipt ctx with
      | None => throw (new_TypeError "Cannot read property 'logs' of undefined")
      | Some rc =>
          match find (is_deploy_log dao logTopic) (logs rc) with
          | None => skip "App wasn't deployed in transaction."
          | Some deployLog =>
              let log := decodeLog env (abi_inputs logABI) (data deployLog) in
              modify_ctx (set_appAddress (log "proxy"))
          end
      end
  end.

Definition set_permissions_enabled (a : Args) (ctx : Ctx) : bool :=
  match setPermissions a with
  | Some s => (s =? "open") && truthy (of_opt (appAddress ctx))
  | None => false
  end.

Definition no_roles_message : string :=
  "You have no roles defined in your arapp.json." ++ String "010"%char
  "This is required for your app to be properly installed." ++ String "010"%char
  "See https://hack.aragon.org/docs/cli-global-confg#the-arappjson-file for more information.".

Definition permission_params (ctx : Ctx) (role : Role) : list Val :=
  [VStr (ANY_ENTITY env); of_opt (appAddress ctx); VStr (role_bytes role);
   VStr (NO_MANAGER env)].

Definition create_permission (dao : string) (params : list Val) : Task Ctx Effect Receipt :=
  execHandler_task dao (getACLTransactionPath "createPermission" params).

Definition set_permissions (dao : string) : Task Ctx Effect unit :=
  ctx <- get_ctx ;;
  match repo ctx with
  | None => throw (new_TypeError "Cannot read property 'roles' of undefined")
  | Some r =>
      match roles r with
      | None | Some [] => throw (new_Error no_roles_message)
      | Some rs =>
          let permissions := map (permission_params ctx) rs in
          match accounts ctx with
          | None =>
              emit GetAccounts ;;
              acc <- await (getAccounts env) ;;
              modify_ctx (set_accounts acc)
          | Some _ => ret tt
          end ;;
          _ <- promise_all (map (create_permission dao) permissions) ;;
          ret tt
      end
  end.

(** The step list handed to [new TaskList], for a resolved DAO address
    and a defaulted repo name. *)
Definition tasks (dao apmRepo : string) (a : Args) : list (Step Ctx Effect) :=
  [ mkStep ("Fetching " ++ chalk_bold env apmRepo ++ "@" ++ template (apmRepoVersion a))
           None
           (getRepoTask_task apmRepo (apmRepoVersion a));
    mkStep "Checking installed version" None (checking_installed_version dao apmRepo);
    mkStep "Deploying app instance" None (deploying_app_instance dao a);
    mkStep "Fetching deployed app" None (fetching_deployed_app dao);
    mkStep "Set permissions" (Some (set_permissions_enabled a)) (set_permissions dao) ].

(** The DAO argument: kept when the pattern finds an address in it,
    resolved as an ENS domain otherwise. *)
Definition resolve_dao (dao : string) : Outcome string :=
  if address_re_test dao then Returned dao else resolveEnsDomain env dao.

(** [exports.task]: the APM client is built first (its calls are the
    environment's [getRepo]), then the DAO argument is resolved, then the
    kernel contract is constructed on the result, which web3 may refuse. *)
Definition task (a : Args) : Outcome (list (Step Ctx Effect)) :=
  match APM env with
  | Thrown e => Thrown e
  | Returned _ =>
      let apmRepo := defaultAPMName env (apmRepo a) in
      match resolve_dao (dao a) with
      | Thrown e => Thrown e
      | Returned dao =>
          match Contract env dao with
          | Thrown e => Thrown e
          | Returned _ => Returned (tasks dao apmRepo a)
          end
      end
  end.

End Tasks.

End Install.

(** ** [dao token new] *)

Module TokenNew.
Import Listr.
Local Open Scope task_scope.

Definition MAINNET_MINIME_TOKEN_FACTORY : string :=
  "0x909d05f384d0663ed4be59863815ab43b4f347ec".
Definition RINKEBY_MINIME_TOKEN_FACTORY : string :=
  "0xad991658443c56b3dE2D7d7f5d8C68F339aEef29".

(** The context object of one run; every property starts out absent. *)
Record Ctx : Type := mkCtx {
  factoryAddress : option string;
  factoryTxHash : option string;
  tokenAddress : option string;
  tokenTxHash : option string
}.

Definition empty_ctx : Ctx := mkCtx None None None None.

Definition set_factoryAddress (a : string) (c : Ctx) : Ctx :=
  mkCtx (Some a) (factoryTxHash c) (tokenAddress c) (tokenTxHash c).
Definition set_factoryTxHash (h : string) (c : Ctx) : Ctx :=
  mkCtx (factoryAddress c) (Some h) (tokenAddress c) (tokenTxHash c).
Definition set_tokenAddress (a : string) (c : Ctx) : Ctx :=
  mkCtx (factoryAddress c) (factoryTxHash c) (Some a) (tokenTxHash c).
Definition set_tokenTxHash (h : string) (c : Ctx) : Ctx :=
  mkCtx (factoryAddress c) (factoryTxHash c) (tokenAddress c) (Some h).

(** [getContract(package, name)]: the artifact, known by its names. *)
Record Artifact : Type := mkArtifact { package : string; contract_name : string }.

(** [contract.deploy({ data, arguments })]. *)
Record DeployTx : Type := mkDeployTx {
  tx_artifact : Artifact;
  tx_arguments : option (list Val)
}.

Record SendOptions : Type := mkSendOptions { from : Val; gas : Z }.

Inductive Effect : Type :=
| EstimateGas (tx : DeployTx)
| Send (tx : DeployTx) (opts : SendOptions).

(** What a sent deployment emits before its promise settles: the
    transaction hash and the receipt, or an error (with or without a
    hash before it). *)
Inductive Sent : Type :=
| Mined (transactionHash : string) (receipt_contractAddress : string)
| Errored (transactionHash : option string) (error : Error).

(** The collaborators the command requires and does not define. *)
Record Env : Type := mkEnv {
  ZERO_ADDRESS : string;
  getAccounts : Outcome (list string);
  getId : Outcome Z;
  parseStringIfPossible : Val -> Val;
  isAddress : Val -> bool;
  estimateGas : DeployTx -> Outcome Z;
  getRecommendedGasLimit : Z -> Outcome Z;
  send : DeployTx -> SendOptions -> Sent
}.

Record Args : Type := mkArgs {
  tokenName : string;
  symbol : string;
  transferEnabled : Val;
  decimalUnits : Val;
  tokenFactoryAddress : option string
}.

(** The two conditional assignments to [tokenFactoryAddress]. *)
Definition default_factory (chainId : Z) (tokenFactoryAddress : option string)
  : option string :=
  let tokenFactoryAddress :=
    if (chainId =? 1)%Z
    then or_else tokenFactoryAddress (Some MAINNET_MINIME_TOKEN_FACTORY)
    else tokenFactoryAddress in
  let tokenFactoryAddress :=
    if (chainId =? 4)%Z
    then or_else tokenFactoryAddress (Some RINKEBY_MINIME_TOKEN_FACTORY)
    else tokenFactoryAddress in
  tokenFactoryAddress.

Section Tasks.
Variable env : Env.

(** The listeners of a deployment's promise, run on what it emits;
    the step's promise rejects with the emitted error. *)
Definition listen (on_receipt on_transactionHash : string -> Ctx -> Ctx) (s : Sent)
  : Task Ctx Effect unit :=
  match s with
  | Mined h a =>
      modify_ctx (on_transactionHash h) ;;
      modify_ctx (on_receipt a)
  | Errored h e =>
      match h with
      | Some h => modify_ctx (on_transactionHash h)
      | None => ret tt
      end ;;
      throw e
  end.

Definition factory_enabled (tokenFactoryAddress : option string) (_ : Ctx) : bool :=
  negb (isAddress env (of_opt tokenFactoryAddress)).

Definition deploy_factory (from : Val) : Task Ctx Effect unit :=
  let artifact := mkArtifact "@aragon/apps-shared-minime" "MiniMeTokenFactory" in
  let deployTx := mkDeployTx artifact None in
  emit (EstimateGas deployTx) ;;
  estimatedGas <- await (estimateGas env deployTx) ;;
  gas <- await (getRecommendedGasLimit env estimatedGas) ;;
  let opts := mkSendOptions from gas in
  emit (Send deployTx opts) ;;
  set_output "Waiting for the transaction to be mined..." ;;
  listen set_factoryAddress set_factoryTxHash (send env deployTx opts).

Definition token_arguments (ctx : Ctx) (tokenFactoryAddress : option string)
  (tokenName symbol : string) (decimalUnits transferEnabled : Val) : list Val :=
  [ of_opt (or_else (factoryAddress ctx) tokenFactoryAddress);
    VStr (ZERO_ADDRESS env);
    VNum 0;
    VStr tokenName;
    decimalUnits;
    VStr symbol;
    transferEnabled ].

Definition deploy_token (from : Val) (tokenFactoryAddress : option string)
  (tokenName symbol : string) (decimalUnits transferEnabled : Val)
  : Task Ctx Effect unit :=
  let artifact := mkArtifact "@aragon/apps-shared-minime" "MiniMeToken" in
  ctx <- get_ctx ;;
  let deployTx :=
    mkDeployTx artifact
      (Some (token_arguments ctx tokenFactoryAddress tokenName symbol
                             decimalUnits transferEnabled)) in
  emit (EstimateGas deployTx) ;;
  estimatedGas <- await (estimateGas env deployTx) ;;
  gas <- await (getRecommendedGasLimit env estimatedGas) ;;
  let opts := mkSendOptions from gas in
  emit (Send deployTx opts) ;;
  set_output "Waiting for the transaction to be mined..." ;;
  listen set_tokenAddress set_tokenTxHash (send env deployTx opts).

(** The step list handed to [new TaskList]. *)
Definition tasks (from : Val) (tokenFactoryAddress : option string)
  (tokenName symbol : string) (decimalUnits transferEnabled : Val)
  : list (Step Ctx Effect) :=
  [ mkStep "Deploy the MiniMeTokenFactory contract"
           (Some (factory_enabled tokenFactoryAddress))
           (deploy_factory from);
    mkStep "Deploy the MiniMeToken contract" None
           (deploy_token from tokenFactoryAddress tokenName symbol
                         decimalUnits transferEnabled) ].

(** [exports.task]. *)
Definition task (a : Args) : Outcome (list (Step Ctx Effect)) :=
  match getAccounts env with
  | Thrown e => Thrown e
  | Returned accounts =>
      let from := of_opt (hd_error accounts) in
      match getId env with
      | Thrown e => Thrown e
      | Returned chainId =>
          let tokenFactoryAddress := default_factory chainId (tokenFactoryAddress a) in
          let transferEnabled := parseStringIfPossible env (transferEnabled a) in
          Returned (tasks from tokenFactoryAddress (tokenName a) (symbol a)
                          (decimalUnits a) transferEnabled)
      end
  end.

End Tasks.

(** The two deployments the steps build. *)
Definition factory_tx : DeployTx :=
  mkDeployTx (mkArtifact "@aragon/apps-shared-minime" "MiniMeTokenFactory") None.

Definition token_tx (arguments : list Val) : DeployTx :=
  mkDeployTx (mkArtifact "@aragon/apps-shared-minime" "MiniMeToken") (Some arguments).

End TokenNew.

(** ** What the specification asks of a pipeline *)

Module Pipeline.
Import Listr.

Section Properties.
Context {Ctx Eff : Type}.

(** How the entry at position [k] came about: it belongs to the step
    declared at position [k], which was either passed over or run on
    the context the entry records. *)
Definition entry_of (s : Step Ctx Eff) (en : Entry Ctx Eff) : Prop :=
  en_title en = title s /\
  ((is_enabled s (en_before en) = false /\
    en_status en = Disabled /\
    en_after en = en_before en /\
    en_effects en = []) \/
   (is_enabled s (en_before en) = true /\
    exists o st,
      task s (start (en_before en)) = (o, st) /\
      en_after en = ts_ctx st /\
      en_effects en = ts_effects st /\
      en_status en = match o with
                     | Returned _ => status_of st
                     | Thrown e => Failed e
                     end)).

(** The step visited at position [k] is the step declared at position
    [k]; the first finds the initial context, every later one the context
    its predecessor left, and its predecessor did not throw. *)
Definition in_declaration_order (steps : list (Step Ctx Eff)) (ctx : Ctx)
  (r : Run Ctx Eff) : Prop :=
  (forall k en,
      nth_error (run_log r) k = Some en ->
      exists s, nth_error steps k = Some s /\ entry_of s en) /\
  (forall en, nth_error (run_log r) 0 = Some en -> en_before en = ctx) /\
  (forall k en',
      nth_error (run_log r) (S k) = Some en' ->
      exists en,
        nth_error (run_log r) k = Some en /\
        en_before en' = en_after en /\
        forall e, en_status en <> Failed e).

(** When the step at position [k] throws [e], the run is the run of the
    first [k + 1] steps alone, whatever was declared after them, and
    it rejects with [e]. *)
Definition stops_at_first_throw (steps : list (Step Ctx Eff)) (ctx : Ctx) : Prop :=
  forall k en e,
    nth_error (run_log (run_steps steps ctx)) k = Some en ->
    en_status en = Failed e ->
    length (run_log (run_steps steps ctx)) = S k /\
    run_rejected (run_steps steps ctx) = Some e /\
    forall later, run_steps (firstn (S k) steps ++ later) ctx = run_steps steps ctx.

(** A step that was passed over or that skipped itself left the
    context as it found it. *)
Definition skips_keep_context (r : Run Ctx Eff) : Prop :=
  forall en,
    In en (run_log r) ->
    (en_status en = Disabled \/ exists msg, en_status en = Skipped msg) ->
    en_after en = en_before en.

(** The run does visit the steps: the first one always, and after a
    visited step that did not throw, the next declared one; it rejects
    with [e] exactly when a visited step threw [e]; a run that is not
    rejected visited every declared step; and the context it ends with is
    the one its last visited step left. *)
Definition makes_progress (steps : list (Step Ctx Eff)) (ctx : Ctx) : Prop :=
  let r := run_steps steps ctx in
  (steps <> [] -> exists en, nth_error (run_log r) 0 = Some en) /\
  (forall k en s',
      nth_error (run_log r) k = Some en ->
      (forall e, en_status en <> Failed e) ->
      nth_error steps (S k) = Some s' ->
      exists en', nth_error (run_log r) (S k) = Some en') /\
  (forall e,
      run_rejected r = Some e <->
      exists k en, nth_error (run_log r) k = Some en /\ en_status en = Failed e) /\
  (run_rejected r = None -> length (run_log r) = length steps) /\
  run_ctx r = last (map en_after (run_log r)) ctx.

Definition well_behaved (steps : list (Step Ctx Eff)) : Prop :=
  forall ctx,
    in_declaration_order steps ctx (run_steps steps ctx) /\
    stops_at_first_throw steps ctx /\
    skips_keep_context (run_steps steps ctx) /\
    makes_progress steps ctx.

(** A step body that never changes the context on a path where it
    calls [task.skip]. *)
Definition skip_clean (t : Task Ctx Eff unit) : Prop :=
  forall ctx u st msg,
    t (start ctx) = (Returned u, st) ->
    ts_skipped st = Some msg ->
    ts_ctx st = ctx.

End Properties.

End Pipeline.

(** ** Case-insensitive equality and address search, as the spec words them *)

Module Words.

Definition is_upper (c : ascii) : Prop :=
  65 <= nat_of_ascii c <= 90.

(** The same character, or the two cases of one letter. *)
Definition same_char_ignoring_case (c d : ascii) : Prop :=
  c = d \/
  (is_upper c /\ nat_of_ascii d = nat_of_ascii c + 32) \/
  (is_upper d /\ nat_of_ascii c = nat_of_ascii d + 32).

Fixpoint same_ignoring_case (a b : string) : Prop :=
  match a, b with
  | EmptyString, EmptyString => True
  | String c a', String d b' => same_char_ignoring_case c d /\ same_ignoring_case a' b'
  | _, _ => False
  end.

(** Every character of [s] is an ASCII character. *)
Fixpoint all_ascii (s : string) : bool :=
  match s with
  | EmptyString => true
  | String c r => (nat_of_ascii c <? 128)%nat && all_ascii r
  end.

Fixpoint all_hex (s : string) : bool :=
  match s with
  | EmptyString => true
  | String c r => is_hex c && all_hex r
  end.

(** [s] holds, somewhere, [0x] followed by forty hexadecimal digits. *)
Definition contains_address (s : string) : Prop :=
  exists before digits after : string,
    s = (before ++ "0x" ++ digits ++ after)%string /\
    String.length digits = 40 /\
    all_hex digits = true.

End Words.

(** ** Concrete environments, for the examples *)

Module Samples.
Import Listr.

Definition zero_address : string := "0x0000000000000000000000000000000000000000".
Definition any_entity : string := "0xffffffffffffffffffffffffffffffffffffffff".
Definition dao_address : string := "0x5b6a3301a67A4bfda9D3a528CaD34cac6e7F8070".
Definition base_v1 : string := "0x1111111111111111111111111111111111111111".
Definition base_v2 : string := "0x2222222222222222222222222222222222222222".
Definition proxy_address : string := "0x3333333333333333333333333333333333333333".

Definition NewAppProxy_abi : Install.AbiEntry :=
  Install.mkAbiEntry "event" "NewAppProxy"
    [ Install.mkAbiInput "proxy" "address";
      Install.mkAbiInput "isUpgradeable" "bool";
      Install.mkAbiInput "appId" "bytes32" ].

Definition voting_roles : list Install.Role :=
  [ Install.mkRole "CREATE_VOTES_ROLE" "0xe7dcd7";
    Install.mkRole "MODIFY_SUPPORT_ROLE" "0xda3972" ].

Definition voting_repo (roles : option (list Install.Role)) : Install.Repo :=
  Install.mkRepo "0x9fa3927f" base_v2 [] roles.

(** The log of a deployment: the data word carries the proxy. *)
Definition deploy_log : Install.Log :=
  Install.mkLog ["keccak:NewAppProxy(address,bool,bytes32)"]
                "0x5B6A3301A67A4BFDA9D3A528CAD34CAC6E7F8070"
                proxy_address.

Definition other_log : Install.Log :=
  Install.mkLog ["keccak:SetApp(bytes32,bytes32,address)"] dao_address "0x00".

(** A DAO whose kernel has [base] registered for every app; hashing and
    log decoding are stand-ins that keep their input readable, and the
    contract constructor accepts the strings of forty-two characters. *)
Definition install_env (base : string) (roles : option (list Install.Role))
  (logs : list Install.Log) : Install.Env :=
  Install.mkEnv
    any_entity zero_address zero_address
    [NewAppProxy_abi]
    (fun s => ("keccak:" ++ s)%string)
    (fun _ data name => if name =? "proxy" then Some data else None)
    (fun _ _ _ => Returned "0x8129fc1c")
    (fun s => s)
    (fun s => s)
    (fun _ => Thrown (new_Error "ENS domain not found"))
    (fun _ => Returned "0xf1f3eb40")
    (fun _ _ _ => Returned base)
    (fun _ _ => Returned (voting_repo roles))
    (fun _ _ => Returned (Install.mkReceipt logs))
    (Returned [dao_address])
    (Returned tt)
    (fun address =>
       if Nat.eqb (String.length address) 42 then Returned tt
       else Thrown (new_Error "Provided address is invalid")).

(** The same DAO, on a node that refuses the accounts request. *)
Definition install_env_without_accounts (base : string)
  (roles : option (list Install.Role)) (logs : list Install.Log) : Install.Env :=
  Install.mkEnv
    any_entity zero_address zero_address
    [NewAppProxy_abi]
    (fun s => ("keccak:" ++ s)%string)
    (fun _ data name => if name =? "proxy" then Some data else None)
    (fun _ _ _ => Returned "0x8129fc1c")
    (fun s => s)
    (fun s => s)
    (fun _ => Thrown (new_Error "ENS domain not found"))
    (fun _ => Returned "0xf1f3eb40")
    (fun _ _ _ => Returned base)
    (fun _ _ => Returned (voting_repo roles))
    (fun _ _ => Returned (Install.mkReceipt logs))
    (Thrown (new_Error "eth_accounts is not available"))
    (Returned tt)
    (fun _ => Returned tt).

Definition install_args (setPermissions : option string) : Install.Args :=
  Install.mkArgs dao_address "voting.aragonpm.eth" None "initialize" [] setPermissions.

Definition ctx_with_repo (roles : option (list Install.Role)) : Install.Ctx :=
  Install.set_repo (voting_repo roles) Install.empty_ctx.

Definition ctx_with_receipt (logs : list Install.Log) : Install.Ctx :=
  Install.set_receipt (Install.mkReceipt logs) (ctx_with_repo (Some voting_roles)).

Definition ctx_with_app : Install.Ctx :=
  Install.set_appAddress (Some proxy_address) (ctx_with_receipt [deploy_log]).

Definition factory_address : string := "0x4444444444444444444444444444444444444444".
Definition token_address : string := "0x5555555555555555555555555555555555555555".

(** A chain on which every deployment is mined; the factory lands at
    [factory_address], the token at [token_address]. The address test
    is a stand-in: forty-two characters. *)
Definition token_env (chainId : Z) : TokenNew.Env :=
  TokenNew.mkEnv
    zero_address
    (Returned [dao_address])
    (Returned chainId)
    (fun v => v)
    (fun v => match v with VStr s => Nat.eqb (String.length s) 42 | _ => false end)
    (fun _ => Returned 1000000%Z)
    (fun g => Returned (g + g / 2)%Z)
    (fun tx _ =>
       match TokenNew.tx_arguments tx with
       | None => TokenNew.Mined "0xaa01" factory_address
       | Some _ => TokenNew.Mined "0xaa02" token_address
       end).

Definition token_args (factory : option string) : TokenNew.Args :=
  TokenNew.mkArgs "Test Token" "TST" (VBool true) (VNum 18) factory.

End Samples.

(** ** The command handlers *)

Module Handlers.
Import Listr.

(** A call on the reporter. *)
Inductive Report : Type :=
| Success (msg : string)
| Info (msg : string)
| Warning (msg : string).

(** How a handler's promise ends: its callback reported and reached
    [process.exit()], or the promise rejected. *)
Inductive Ended : Type :=
| Exited (reports : list Report)
| Rejected (e : Error).

(** Every request of a run, in the order made. *)
Definition requests {Ctx Eff : Type} (r : Run Ctx Eff) : list Eff :=
  concat (map en_effects (run_log r)).

(** The transaction paths the install steps ask for. *)
Definition newAppInstance_path (dao : string) (r : Install.Repo) (initPayload : string)
  : Install.TxPath :=
  Install.getTransactionPath dao "newAppInstance"
    [VStr (Install.appId r); VStr (Install.contractAddress r); VStr initPayload; VBool false].

Definition createPermission_path (env : Install.Env) (ctx : Install.Ctx)
  (role : Install.Role) : Install.TxPath :=
  Install.getACLTransactionPath "createPermission" (Install.permission_params env ctx role).

(** The five steps of the install pipeline, one by one. *)
Definition resolve_step (env : Install.Env) (apmRepo : string) (a : Install.Args)
  : Step Install.Ctx Install.Effect :=
  mkStep ("Fetching " ++ Install.chalk_bold env apmRepo ++ "@"
          ++ template (Install.apmRepoVersion a))%string
         None (Install.getRepoTask_task env apmRepo (Install.apmRepoVersion a)).

Definition check_step (env : Install.Env) (dao apmRepo : string)
  : Step Install.Ctx Install.Effect :=
  mkStep "Checking installed version" None
         (Install.checking_installed_version env dao apmRepo).

Definition deploy_step (env : Install.Env) (dao : string) (a : Install.Args)
  : Step Install.Ctx Install.Effect :=
  mkStep "Deploying app instance" None (Install.deploying_app_instance env dao a).

Definition decode_step (env : Install.Env) (dao : string)
  : Step Install.Ctx Install.Effect :=
  mkStep "Fetching deployed app" None (Install.fetching_deployed_app env dao).

Definition permissions_step (env : Install.Env) (dao : string) (a : Install.Args)
  : Step Install.Ctx Install.Effect :=
  mkStep "Set permissions" (Some (Install.set_permissions_enabled a))
         (Install.set_permissions env dao).

(** A create-permission transaction sent through the DAO. *)
Definition is_createPermission (dao : string) (tx : string * Install.TxPath) : Prop :=
  fst tx = dao /\
  exists params, snd tx = Install.getACLTransactionPath "createPermission" params.

(** The deployments sent among the requests made, in the order made. *)
Definition sent (l : list TokenNew.Effect) : list (TokenNew.DeployTx * TokenNew.SendOptions) :=
  flat_map (fun e => match e with
                     | TokenNew.Send tx opts => [(tx, opts)]
                     | TokenNew.EstimateGas _ => []
                     end) l.

Definition waiting : string := "Waiting for the transaction to be mined...".

(** What a deployment step leaves behind once its gas limit is known:
    the requests made, and the context and outcome that the sent
    deployment decides. *)
Definition deployed (tx : TokenNew.DeployTx) (opts : TokenNew.SendOptions)
  (on_receipt on_transactionHash : string -> TokenNew.Ctx -> TokenNew.Ctx)
  (s : TokenNew.Sent) (ctx : TokenNew.Ctx)
  : Outcome unit * TaskState TokenNew.Ctx TokenNew.Effect :=
  let requests := [TokenNew.EstimateGas tx; TokenNew.Send tx opts] in
  match s with
  | TokenNew.Mined h address =>
      (Returned tt,
       mkTaskState (on_receipt address (on_transactionHash h ctx)) None (Some waiting) requests)
  | TokenNew.Errored (Some h) e =>
      (Thrown e, mkTaskState (on_transactionHash h ctx) None (Some waiting) requests)
  | TokenNew.Errored None e =>
      (Thrown e, mkTaskState ctx None (Some waiting) requests)
  end.

(** The two steps of the token-new pipeline, one by one. *)
Definition factory_step (env : TokenNew.Env) (from : Val) (tokenFactoryAddress : option string)
  : Step TokenNew.Ctx TokenNew.Effect :=
  mkStep "Deploy the MiniMeTokenFactory contract"
         (Some (TokenNew.factory_enabled env tokenFactoryAddress))
         (TokenNew.deploy_factory env from).

Definition token_step (env : TokenNew.Env) (from : Val) (tokenFactoryAddress : option string)
  (tokenName symbol : string) (decimalUnits transferEnabled : Val)
  : Step TokenNew.Ctx TokenNew.Effect :=
  mkStep "Deploy the MiniMeToken contract" None
         (TokenNew.deploy_token env from tokenFactoryAddress tokenName symbol
                                decimalUnits transferEnabled).

Definition quote : string := String "034"%char EmptyString.

Definition permissions_warning : string :=
  "After the app instance is created, you will need to assign permissions to it for it appear as an app in the DAO".

Definition not_initialized_warning : string :=
  "App could not be initialized, check the --app-init flag. Functions protected behind the ACL will not work until the app is initialized".

(** The callback of the install handler. [ctx.transactionPath], which the
    transaction executor leaves in the context and [Install.Ctx] does not
    carry, is given beside it, as the descriptions of its items. *)
Definition install_reports (env : Install.Env) (apmRepo : string)
  (transactionPath : option (list string)) (ctx : Install.Ctx) : Outcome (list Report) :=
  match transactionPath with
  | None => Thrown (new_TypeError "Cannot read property '0' of undefined")
  | Some [] => Thrown (new_TypeError "Cannot read property 'description' of undefined")
  | Some (description :: _) =>
      Returned
        ([Info ("Successfully executed: " ++ quote ++ description ++ quote)%string]
         ++ (if truthy (of_opt (Install.appAddress ctx))
             then [Success ("Installed " ++ apmRepo ++ " at: "
                            ++ Install.chalk_bold env (template (Install.appAddress ctx)))%string]
             else [Warning permissions_warning])
         ++ (if Install.notInitialized ctx then [Warning not_initialized_warning] else []))
  end.

(** [exports.handler] of the install command: [ensureWeb3] hands back the
    web3 that the environment's calls go through; the pipeline runs on a
    fresh context. *)
Definition install_handler (ensureWeb3 : Outcome Install.Env)
  (transactionPath : option (list string)) (a : Install.Args) : Ended :=
  match ensureWeb3 with
  | Thrown e => Rejected e
  | Returned env =>
      match Install.task env a with
      | Thrown e => Rejected e
      | Returned steps =>
          let r := run_steps steps Install.empty_ctx in
          match run_rejected r with
          | Some e => Rejected e
          | None =>
              match install_reports env (Install.apmRepo a) transactionPath (run_ctx r) with
              | Returned reports => Exited reports
              | Thrown e => Rejected e
              end
          end
      end
  end.

(** The callback of the token-new handler. *)
Definition token_reports (chalk_bold : string -> string) (ctx : TokenNew.Ctx) : list Report :=
  [ Success ("Successfully deployed the token at "
             ++ chalk_bold (template (TokenNew.tokenAddress ctx)))%string;
    Info ("Token transaction hash: " ++ template (TokenNew.tokenTxHash ctx))%string ]
  ++ (if truthy (of_opt (TokenNew.factoryAddress ctx))
      then [ Success ("Successfully deployed the token factory at "
                      ++ chalk_bold (template (TokenNew.factoryAddress ctx)))%string;
             Info ("Token factory transaction hash: "
                   ++ template (TokenNew.factoryTxHash ctx))%string ]
      else []).

(** [exports.handler] of the token-new command. *)
Definition token_handler (chalk_bold : string -> string)
  (ensureWeb3 : Outcome TokenNew.Env) (a : TokenNew.Args) : Ended :=
  match ensureWeb3 with
  | Thrown e => Rejected e
  | Returned env =>
      match TokenNew.task env a with
      | Thrown e => Rejected e
      | Returned steps =>
          let r := run_steps steps TokenNew.empty_ctx in
          match run_rejected r with
          | Some e => Rejected e
          | None => Exited (token_reports chalk_bold (run_ctx r))
          end
      end
  end.

End Handlers.

(** ** The runner *)

Module RunnerFacts.
Import Listr Pipeline.

Section Facts.
Context {Ctx Eff : Type}.
Implicit Types (steps : list (Step Ctx Eff)) (ctx : Ctx).

Lemma status_of_not_failed (st : TaskState Ctx Eff) e :
  status_of st <> Failed e.
Proof. unfold status_of. destruct (ts_skipped st); discriminate. Qed.

Lemma status_of_not_disabled (st : TaskState Ctx Eff) :
  status_of st <> Disabled.
Proof. unfold status_of. destruct (ts_skipped st); discriminate. Qed.

Lemma run_steps_disabled (s : Step Ctx Eff) rest ctx :
  is_enabled s ctx = false ->
  run_steps (s :: rest) ctx =
  logged (mkEntry (title s) Disabled ctx ctx []) (run_steps rest ctx).
Proof. intros H. simpl. rewrite H. reflexivity. Qed.

Lemma run_steps_returned (s : Step Ctx Eff) rest ctx u st :
  is_enabled s ctx = true ->
  task s (start ctx) = (Returned u, st) ->
  run_steps (s :: rest) ctx =
  logged (mkEntry (title s) (status_of st) ctx (ts_ctx st) (ts_effects st))
         (run_steps rest (ts_ctx st)).
Proof. intros H E. simpl. rewrite H, E. reflexivity. Qed.

Lemma run_steps_thrown (s : Step Ctx Eff) rest ctx e st :
  is_enabled s ctx = true ->
  task s (start ctx) = (Thrown e, st) ->
  run_steps (s :: rest) ctx =
  mkRun [mkEntry (title s) (Failed e) ctx (ts_ctx st) (ts_effects st)]
        (ts_ctx st) (Some e).
Proof. intros H E. simpl. rewrite H, E. reflexivity. Qed.

(** The three ways the runner can treat the head of a step list. *)
Ltac head_cases s ctx :=
  let En := fresh "En" in
  let Et := fresh "Et" in
  destruct (is_enabled s ctx) eqn:En;
  [ destruct (task s (start ctx)) as [[u | e0] st] eqn:Et;
    [ rewrite (run_steps_returned s _ ctx u st En Et)
    | rewrite (run_steps_thrown s _ ctx e0 st En Et) ]
  | rewrite (run_steps_disabled s _ ctx En) ].

Lemma run_stops_at_first_throw steps :
  forall ctx, stops_at_first_throw steps ctx.
Proof.
  unfold stops_at_first_throw.
  induction steps as [| s rest IH]; intros ctx k en e Hk Hs.
  - destruct k; discriminate Hk.
  - revert Hk. head_cases s ctx; intros Hk.
    + destruct k as [| k]; simpl in Hk.
      * injection Hk as <-. simpl in Hs. exfalso. exact (status_of_not_failed _ _ Hs).
      * destruct (IH _ _ _ _ Hk Hs) as (Hl & Hr & Hc).
        split; [simpl; now rewrite Hl | split; [exact Hr |]].
        intros later.
        change (firstn (S (S k)) (s :: rest) ++ later)
          with (s :: (firstn (S k) rest ++ later)).
        rewrite (run_steps_returned s _ ctx u st En Et), Hc. reflexivity.
    + destruct k as [| k]; simpl in Hk.
      * injection Hk as <-. simpl in Hs. injection Hs as <-.
        split; [reflexivity | split; [reflexivity |]].
        intros later.
        change (firstn 1 (s :: rest) ++ later) with (s :: (firstn 0 rest ++ later)).
        rewrite (run_steps_thrown s _ ctx e0 st En Et). reflexivity.
      * destruct k; discriminate Hk.
    + destruct k as [| k]; simpl in Hk.
      * injection Hk as <-. discriminate Hs.
      * destruct (IH _ _ _ _ Hk Hs) as (Hl & Hr & Hc).
        split; [simpl; now rewrite Hl | split; [exact Hr |]].
        intros later.
        change (firstn (S (S k)) (s :: rest) ++ later)
          with (s :: (firstn (S k) rest ++ later)).
        rewrite (run_steps_disabled s _ ctx En), Hc. reflexivity.
Qed.

Lemma run_skips_keep_context steps :
  Forall (fun s => skip_clean (task s)) steps ->
  forall ctx, skips_keep_context (run_steps steps ctx).
Proof.
  unfold skips_keep_context.
  induction 1 as [| s rest Hs _ IH]; intros ctx en Hin Hst.
  - destruct Hin.
  - revert Hin. head_cases s ctx; simpl; intros [<- | Hin]; simpl in *;
      try (now apply (IH _ _ Hin Hst)); try reflexivity; try contradiction.
    + destruct Hst as [Hd | [msg Hm]].
      * exfalso. exact (status_of_not_disabled _ Hd).
      * unfold status_of in Hm. destruct (ts_skipped st) as [m |] eqn:Hk; [| discriminate].
        exact (Hs ctx u st m Et Hk).
    + destruct Hst as [Hd | [msg Hm]]; discriminate.
Qed.

Lemma run_log_entry steps :
  forall ctx k en,
    nth_error (run_log (run_steps steps ctx)) k = Some en ->
    exists s, nth_error steps k = Some s /\ entry_of s en.
Proof.
  induction steps as [| s rest IH]; intros ctx k en Hk.
  - destruct k; discriminate Hk.
  - revert Hk. head_cases s ctx; intros Hk; destruct k as [| k]; simpl in Hk.
    + injection Hk as <-. exists s. split; [reflexivity |].
      split; [reflexivity | right]. simpl. split; [exact En |].
      exists (Returned u), st. repeat split. exact Et.
    + apply IH in Hk. exact Hk.
    + injection Hk as <-. exists s. split; [reflexivity |].
      split; [reflexivity | right]. simpl. split; [exact En |].
      exists (Thrown e0), st. repeat split. exact Et.
    + destruct k; discriminate Hk.
    + injection Hk as <-. exists s. split; [reflexivity |].
      split; [reflexivity | left]. simpl. repeat split. exact En.
    + apply IH in Hk. exact Hk.
Qed.

(** The first visited step finds the initial context; every later one
    finds the context its predecessor left, and its predecessor did
    not throw. *)
Lemma run_log_first steps ctx en :
  nth_error (run_log (run_steps steps ctx)) 0 = Some en -> en_before en = ctx.
Proof.
  destruct steps as [| s rest]; [discriminate |].
  head_cases s ctx; simpl; intros H; injection H as <-; reflexivity.
Qed.

Lemma run_log_next steps :
  forall ctx k en',
    nth_error (run_log (run_steps steps ctx)) (S k) = Some en' ->
    exists en,
      nth_error (run_log (run_steps steps ctx)) k = Some en /\
      en_before en' = en_after en /\
      forall e, en_status en <> Failed e.
Proof.
  induction steps as [| s rest IH]; intros ctx k en' Hk.
  - discriminate Hk.
  - revert Hk. head_cases s ctx; simpl; intros Hk.
    + destruct k as [| k].
      * eexists. split; [reflexivity |]. simpl.
        split; [exact (run_log_first _ _ _ Hk) | apply status_of_not_failed].
      * apply IH in Hk. exact Hk.
    + destruct k; discriminate Hk.
    + destruct k as [| k].
      * eexists. split; [reflexivity |]. simpl.
        split; [exact (run_log_first _ _ _ Hk) | discriminate].
      * apply IH in Hk. exact Hk.
Qed.

Lemma run_log_head (s : Step Ctx Eff) rest ctx :
  exists en,
    nth_error (run_log (run_steps (s :: rest) ctx)) 0 = Some en /\
    en_before en = ctx.
Proof. head_cases s ctx; eexists; split; reflexivity. Qed.

(** After a visited step that did not throw, the runner goes on to
    the next declared step, on the context that step left. *)
Lemma run_log_continues steps :
  forall ctx k en s',
    nth_error (run_log (run_steps steps ctx)) k = Some en ->
    (forall e, en_status en <> Failed e) ->
    nth_error steps (S k) = Some s' ->
    exists en',
      nth_error (run_log (run_steps steps ctx)) (S k) = Some en' /\
      en_before en' = en_after en.
Proof.
  induction steps as [| s rest IH]; intros ctx k en s' Hk Hnf Hs'.
  - discriminate Hs'.
  - simpl in Hs'. revert Hk. head_cases s ctx; simpl; intros Hk.
    + destruct k as [| k].
      * injection Hk as <-. simpl.
        destruct rest as [| s1 rest]; [discriminate Hs' |].
        apply run_log_head.
      * exact (IH _ _ _ _ Hk Hnf Hs').
    + destruct k as [| k].
      * injection Hk as <-. exfalso. exact (Hnf e0 eq_refl).
      * destruct k; discriminate Hk.
    + destruct k as [| k].
      * injection Hk as <-. simpl.
        destruct rest as [| s1 rest]; [discriminate Hs' |].
        apply run_log_head.
      * exact (IH _ _ _ _ Hk Hnf Hs').
Qed.

(** What every body of a step preserves, its entries preserve. *)
Lemma entry_preserves {B : Type} (f : Ctx -> B) (s : Step Ctx Eff) en :
  (forall ctx o st, task s (start ctx) = (o, st) -> f (ts_ctx st) = f ctx) ->
  entry_of s en ->
  f (en_after en) = f (en_before en).
Proof.
  intros Hf [_ [(_ & _ & -> & _) | (_ & o & st & Ht & -> & _)]].
  - reflexivity.
  - exact (Hf _ _ _ Ht).
Qed.

Lemma run_rejected_iff steps :
  forall ctx e,
    run_rejected (run_steps steps ctx) = Some e <->
    exists k en,
      nth_error (run_log (run_steps steps ctx)) k = Some en /\ en_status en = Failed e.
Proof.
  induction steps as [| s rest IH]; intros ctx e.
  - simpl. split; [discriminate | intros (k & en & H & _); destruct k; discriminate H].
  - head_cases s ctx.
    + change (run_rejected (logged ?en ?r)) with (run_rejected r). rewrite IH. split.
      * intros (k & en & Hk & Hs). now exists (S k), en.
      * intros ([| k] & en & Hk & Hs); simpl in Hk.
        -- injection Hk as <-. simpl in Hs. exfalso. exact (status_of_not_failed _ _ Hs).
        -- now exists k, en.
    + simpl. split.
      * intros H. injection H as <-. eexists 0, _. split; reflexivity.
      * intros ([| k] & en & Hk & Hs); simpl in Hk.
        -- injection Hk as <-. simpl in Hs. now injection Hs as <-.
        -- destruct k; discriminate Hk.
    + change (run_rejected (logged ?en ?r)) with (run_rejected r). rewrite IH. split.
      * intros (k & en & Hk & Hs). now exists (S k), en.
      * intros ([| k] & en & Hk & Hs); simpl in Hk.
        -- injection Hk as <-. discriminate Hs.
        -- now exists k, en.
Qed.

Lemma run_resolved_length steps :
  forall ctx,
    run_rejected (run_steps steps ctx) = None ->
    length (run_log (run_steps steps ctx)) = length steps.
Proof.
  induction steps as [| s rest IH]; intros ctx.
  - reflexivity.
  - head_cases s ctx; simpl; intros H; try discriminate H; f_equal; apply IH; exact H.
Qed.

Lemma last_cons_default {A : Type} (l : list A) (x d : A) :
  last (x :: l) d = last l x.
Proof.
  revert x d. induction l as [| y l IH]; intros x d; [reflexivity |].
  change (last (x :: y :: l) d) with (last (y :: l) d).
  now rewrite (IH y d), (IH y x).
Qed.

Lemma run_ctx_is_last_after steps :
  forall ctx,
    run_ctx (run_steps steps ctx) = last (map en_after (run_log (run_steps steps ctx))) ctx.
Proof.
  induction steps as [| s rest IH]; intros ctx.
  - reflexivity.
  - head_cases s ctx.
    + change (run_ctx (logged ?en ?r)) with (run_ctx r).
      change (run_log (logged ?en ?r)) with (en :: run_log r).
      rewrite map_cons, last_cons_default. apply IH.
    + reflexivity.
    + change (run_ctx (logged ?en ?r)) with (run_ctx r).
      change (run_log (logged ?en ?r)) with (en :: run_log r).
      rewrite map_cons, last_cons_default. apply IH.
Qed.

Lemma run_makes_progress steps ctx : makes_progress steps ctx.
Proof.
  unfold makes_progress. cbv zeta. split; [| split; [| split; [| split]]].
  - intros Hne. destruct steps as [| s rest]; [now elim Hne |].
    destruct (run_log_head s rest ctx) as (en & H & _). now exists en.
  - intros k en s' Hk Hnf Hs'.
    destruct (run_log_continues steps ctx k en s' Hk Hnf Hs') as (en' & H & _).
    now exists en'.
  - apply run_rejected_iff.
  - apply run_resolved_length.
  - apply run_ctx_is_last_after.
Qed.

Lemma run_well_behaved steps :
  Forall (fun s => skip_clean (task s)) steps ->
  well_behaved steps.
Proof.
  intros H ctx. split; [| split; [| split]].
  - split; [| split].
    + apply run_log_entry.
    + apply run_log_first.
    + apply run_log_next.
  - apply run_stops_at_first_throw.
  - apply run_skips_keep_context, H.
  - apply run_makes_progress.
Qed.

End Facts.

End RunnerFacts.

(** ** [Array.prototype.find] *)

Module FindFacts.

Section Find.
Context {A : Type} (f : A -> bool).

Lemma find_first (before : list A) l after :
  f l = true ->
  (forall x, In x before -> f x = false) ->
  find f (before ++ l :: after) = Some l.
Proof.
  intros Hl. induction before as [| b before IH]; intros Hb; simpl.
  - now rewrite Hl.
  - rewrite (Hb b (or_introl eq_refl)). apply IH.
    intros x Hx. apply Hb. now right.
Qed.

Lemma find_nothing (l : list A) :
  (forall x, In x l -> f x = false) -> find f l = None.
Proof.
  induction l as [| a l IH]; intros H; simpl.
  - reflexivity.
  - rewrite (H a (or_introl eq_refl)). apply IH.
    intros x Hx. apply H. now right.
Qed.

Lemma find_something (l : list A) x :
  In x l -> f x = true -> exists y, find f l = Some y /\ In y l /\ f y = true.
Proof.
  intros Hin Hx. destruct (find f l) as [y |] eqn:E.
  - exists y. split; [reflexivity |]. now apply find_some in E.
  - rewrite (find_none _ _ E _ Hin) in Hx. discriminate Hx.
Qed.

End Find.

End FindFacts.

(** ** The steps of the two commands *)

Module StepFacts.
Import Listr Pipeline RunnerFacts.

(** Unfolds the plumbing of a step body. *)
Ltac unfold_task :=
  unfold bind, ret, throw, await, get_ctx, modify_ctx, skip, set_output, emit, start in *;
  simpl in *.

(** Closes a goal about a step that ran to a given final state. *)
Ltac settle :=
  simpl in *;
  repeat match goal with
         | H : (_, _) = (_, _) |- _ => inversion H; clear H; subst
         end;
  simpl in *; try congruence; try discriminate; auto.

Section InstallSteps.
Variable env : Install.Env.
Variable dao : string.

(** Every create-permission call is made, in the order of the list,
    and none of them touches the context or the task handle. *)
Lemma promise_all_create_permission permissions :
  forall st : TaskState Install.Ctx Install.Effect,
    snd (Install.promise_all (map (Install.create_permission env dao) permissions) st) =
    mkTaskState (ts_ctx st) (ts_skipped st) (ts_output st)
      (ts_effects st ++
       map (fun params =>
              Install.ExecTask dao (Install.getACLTransactionPath "createPermission" params))
           permissions).
Proof.
  induction permissions as [| p ps IH]; intros st.
  - simpl. rewrite app_nil_r. destruct st; reflexivity.
  - simpl.
    destruct (Install.execTask env dao _) as [rc | e].
    + match goal with
      | |- context [Install.promise_all ?l ?s] =>
          specialize (IH s); destruct (Install.promise_all l s) as [[r | e'] st2]
      end; simpl in *; subst; simpl; rewrite <- app_assoc; reflexivity.
    + simpl. rewrite IH. simpl. rewrite <- app_assoc. reflexivity.
Qed.

Lemma getRepoTask_skip_clean apmRepo version :
  skip_clean (Install.getRepoTask_task env apmRepo version).
Proof.
  intros ctx u st msg H Hs. unfold Install.getRepoTask_task in H. unfold_task.
  destruct (Install.getRepo env apmRepo version); settle.
Qed.

Lemma checking_installed_version_skip_clean apmRepo :
  skip_clean (Install.checking_installed_version env dao apmRepo).
Proof.
  intros ctx u st msg H Hs. unfold Install.checking_installed_version in H. unfold_task.
  destruct (Install.APP_BASES_NAMESPACE env dao) as [ns | e]; settle.
  destruct (Install.repo ctx) as [r |]; settle.
  destruct (Install.getApp env dao ns _) as [currentBase | e]; settle.
  destruct (currentBase =? Install.ZERO_ADDRESS env); settle.
  destruct (Install.addressesEqual currentBase _); settle.
Qed.

Lemma deploying_app_instance_skip_clean a :
  skip_clean (Install.deploying_app_instance env dao a).
Proof.
  intros ctx u st msg H Hs.
  unfold Install.deploying_app_instance, Install.execHandler_task in H. unfold_task.
  destruct (Install.repo ctx) as [r |]; settle.
  destruct (Install.encodeInitPayload env _ _ _) as [initPayload | e]; settle.
  destruct (initPayload =? "0x"); simpl in H;
    destruct (Install.execTask env dao _); settle.
Qed.

Lemma fetching_deployed_app_skip_clean :
  skip_clean (Install.fetching_deployed_app env dao).
Proof.
  intros ctx u st msg H Hs. unfold Install.fetching_deployed_app in H. unfold_task.
  destruct (find Install.is_NewAppProxy _) as [logABI |]; settle.
  destruct (Install.receipt ctx) as [rc |]; settle.
  destruct (find _ (Install.logs rc)); settle.
Qed.

Lemma getRepoTask_keeps_appAddress apmRepo version ctx o st :
  Install.getRepoTask_task env apmRepo version (start ctx) = (o, st) ->
  Install.appAddress (ts_ctx st) = Install.appAddress ctx.
Proof.
  unfold Install.getRepoTask_task. unfold_task.
  destruct (Install.getRepo env apmRepo version); intros H; inversion H; reflexivity.
Qed.

Lemma checking_installed_version_keeps_ctx apmRepo ctx o st :
  Install.checking_installed_version env dao apmRepo (start ctx) = (o, st) ->
  ts_ctx st = ctx.
Proof.
  unfold Install.checking_installed_version. unfold_task.
  destruct (Install.APP_BASES_NAMESPACE env dao) as [ns | e];
    [| intros H; inversion H; reflexivity].
  destruct (Install.repo ctx) as [r |]; [| intros H; inversion H; reflexivity].
  destruct (Install.getApp env dao ns _) as [currentBase | e];
    [| intros H; inversion H; reflexivity].
  destruct (currentBase =? Install.ZERO_ADDRESS env);
    [intros H; inversion H; reflexivity |].
  destruct (Install.addressesEqual currentBase _); simpl;
    intros H; inversion H; reflexivity.
Qed.

Lemma deploying_app_instance_keeps_appAddress a ctx o st :
  Install.deploying_app_instance env dao a (start ctx) = (o, st) ->
  Install.appAddress (ts_ctx st) = Install.appAddress ctx.
Proof.
  unfold Install.deploying_app_instance, Install.execHandler_task. unfold_task.
  destruct (Install.repo ctx) as [r |]; [| intros H; inversion H; reflexivity].
  destruct (Install.encodeInitPayload env _ _ _) as [initPayload | e];
    [| intros H; inversion H; reflexivity].
  destruct (initPayload =? "0x"); simpl;
    destruct (Install.execTask env dao _); intros H; inversion H; reflexivity.
Qed.

Lemma fetching_deployed_app_found ctx logABI rc deployLog :
  find Install.is_NewAppProxy (Install.kernelABI env) = Some logABI ->
  Install.receipt ctx = Some rc ->
  find (Install.is_deploy_log dao (Install.sha3 env (Install.logSignature logABI)))
       (Install.logs rc) = Some deployLog ->
  Install.fetching_deployed_app env dao (start ctx) =
  (Returned tt,
   start (Install.set_appAddress
            (Install.decodeLog env (Install.abi_inputs logABI)
                               (Install.data deployLog) "proxy") ctx)).
Proof.
  intros Habi Hrc Hfind. unfold Install.fetching_deployed_app.
  rewrite Habi. unfold_task. rewrite Hrc, Hfind. reflexivity.
Qed.

Lemma fetching_deployed_app_absent ctx logABI rc :
  find Install.is_NewAppProxy (Install.kernelABI env) = Some logABI ->
  Install.receipt ctx = Some rc ->
  find (Install.is_deploy_log dao (Install.sha3 env (Install.logSignature logABI)))
       (Install.logs rc) = None ->
  Install.fetching_deployed_app env dao (start ctx) =
  (Returned tt, mkTaskState ctx (Some "App wasn't deployed in transaction.") None []).
Proof.
  intros Habi Hrc Hfind. unfold Install.fetching_deployed_app.
  rewrite Habi. unfold_task. rewrite Hrc, Hfind. reflexivity.
Qed.

Lemma is_deploy_log_spec logTopic l :
  Install.is_deploy_log dao logTopic l = true <->
  exists t ts,
    Install.topics l = t :: ts /\ t = logTopic /\
    Install.addressesEqual dao (Install.address l) = true.
Proof.
  unfold Install.is_deploy_log. destruct (Install.topics l) as [| t ts].
  - split; [discriminate | intros (t & ts & H & _); discriminate H].
  - rewrite andb_true_iff, String.eqb_eq. split.
    + intros [-> H]. now exists logTopic, ts.
    + intros (t' & ts' & H & -> & Ha). injection H as -> _. now split.
Qed.

Lemma set_permissions_enabled_spec a ctx :
  Install.set_permissions_enabled a ctx = true <->
  Install.setPermissions a = Some "open" /\
  exists proxy, Install.appAddress ctx = Some proxy /\ proxy <> "".
Proof.
  unfold Install.set_permissions_enabled.
  destruct (Install.setPermissions a) as [s |].
  - rewrite andb_true_iff, String.eqb_eq.
    destruct (Install.appAddress ctx) as [proxy |]; simpl.
    + rewrite negb_true_iff, String.eqb_neq. split.
      * intros [-> H]. split; [reflexivity | now exists proxy].
      * intros [H (p & Hp & Hn)]. injection H as ->. injection Hp as ->. now split.
    + split.
      * intros [_ H]. discriminate H.
      * intros [_ (p & Hp & _)]. discriminate Hp.
  - split; [discriminate | intros [H _]; discriminate H].
Qed.

(** The three ways the check ends once the kernel has answered. *)
Lemma checking_installed_version_run apmRepo ctx r ns currentBase :
  Install.repo ctx = Some r ->
  Install.APP_BASES_NAMESPACE env dao = Returned ns ->
  Install.getApp env dao ns (Install.appId r) = Returned currentBase ->
  Install.checking_installed_version env dao apmRepo (start ctx) =
  if currentBase =? Install.ZERO_ADDRESS env then
    (Returned tt,
     mkTaskState ctx (Some ("Installing the first instance of " ++ apmRepo ++ " in DAO")%string)
                 None [])
  else if Install.addressesEqual currentBase (Install.contractAddress r) then
    (Returned tt, start ctx)
  else
    (Thrown (new_Error (Install.version_mismatch_message apmRepo currentBase)), start ctx).
Proof.
  intros Hr Hns Hbase. unfold Install.checking_installed_version. unfold_task.
  rewrite Hns, Hr, Hbase.
  destruct (currentBase =? Install.ZERO_ADDRESS env); [reflexivity |].
  destruct (Install.addressesEqual currentBase (Install.contractAddress r)); reflexivity.
Qed.

(** The decode step either leaves the context alone or completes. *)
Lemma fetching_deployed_app_cases ctx o st :
  Install.fetching_deployed_app env dao (start ctx) = (o, st) ->
  ts_ctx st = ctx \/ (o = Returned tt /\ ts_skipped st = None).
Proof.
  unfold Install.fetching_deployed_app. unfold_task.
  destruct (find Install.is_NewAppProxy _) as [logABI |];
    [| intros H; inversion H; auto].
  cbn.
  destruct (Install.receipt ctx) as [rc |]; [| intros H; inversion H; auto].
  destruct (find _ (Install.logs rc)); intros H; inversion H; auto.
Qed.

(** Before the decode step, nothing writes [ctx.appAddress]. *)
Lemma appAddress_before_decoding apmRepo a ctx0 en3 :
  nth_error (run_log (run_steps (Install.tasks env dao apmRepo a) ctx0)) 3 = Some en3 ->
  Install.appAddress (en_before en3) = Install.appAddress ctx0.
Proof.
  intros H3.
  destruct (run_log_next _ _ _ _ H3) as (en2 & H2 & -> & _).
  destruct (run_log_next _ _ _ _ H2) as (en1 & H1 & B2 & _).
  destruct (run_log_next _ _ _ _ H1) as (en0 & H0 & B1 & _).
  pose proof (run_log_first _ _ _ H0) as B0.
  destruct (run_log_entry _ _ _ _ H2) as (s2 & S2 & E2).
  destruct (run_log_entry _ _ _ _ H1) as (s1 & S1 & E1).
  destruct (run_log_entry _ _ _ _ H0) as (s0 & S0 & E0).
  simpl in S2, S1, S0.
  injection S2 as <-. injection S1 as <-. injection S0 as <-.
  pose proof (fun H => entry_preserves Install.appAddress _ _ H E2) as P2.
  pose proof (fun H => entry_preserves Install.appAddress _ _ H E1) as P1.
  pose proof (fun H => entry_preserves Install.appAddress _ _ H E0) as P0.
  rewrite (P2 (deploying_app_instance_keeps_appAddress a)), B2.
  rewrite (P1 (fun ctx o st H =>
                 f_equal Install.appAddress
                   (checking_installed_version_keeps_ctx apmRepo ctx o st H))), B1.
  rewrite (P0 (getRepoTask_keeps_appAddress apmRepo (Install.apmRepoVersion a))), B0.
  reflexivity.
Qed.

(** What [set_permissions] leaves behind, whichever way it ends. *)
Lemma set_permissions_state ctx o st :
  Install.set_permissions env dao (start ctx) = (o, st) ->
  ts_skipped st = None /\
  (ts_ctx st = ctx \/ exists acc, ts_ctx st = Install.set_accounts acc ctx).
Proof.
  unfold Install.set_permissions, bind at 1, get_ctx. simpl.
  destruct (Install.repo ctx) as [r |];
    [| intros H; inversion H; subst; simpl; auto].
  destruct (Install.roles r) as [[| role rs] |];
    try (intros H; inversion H; subst; simpl; auto; fail).
  remember (map (Install.create_permission env dao)
                (map (Install.permission_params env ctx) (role :: rs)))
    as calls eqn:Hcalls.
  unfold bind.
  destruct (Install.accounts ctx) as [acc |].
  - unfold ret at 1.
    pose proof (promise_all_create_permission
                  (map (Install.permission_params env ctx) (role :: rs)) (start ctx)) as P.
    rewrite <- Hcalls in P.
    destruct (Install.promise_all calls (start ctx)) as [[x | e] st2];
      simpl in P; subst; intros H; inversion H; subst; simpl; auto.
  - unfold emit at 1, await at 1. simpl.
    destruct (Install.getAccounts env) as [acc | e];
      [| intros H; inversion H; subst; simpl; auto].
    unfold modify_ctx at 1. simpl.
    match goal with
    | |- context [Install.promise_all calls ?s] =>
        pose proof (promise_all_create_permission
                      (map (Install.permission_params env ctx) (role :: rs)) s) as P;
        rewrite <- Hcalls in P;
        destruct (Install.promise_all calls s) as [[x | e] st2]
    end; simpl in P; subst; intros H; inversion H; subst; simpl; eauto.
Qed.

(** The requests [set_permissions] makes once the repo has roles. *)
Lemma set_permissions_with_roles ctx r role rs :
  Install.repo ctx = Some r ->
  Install.roles r = Some (role :: rs) ->
  let call role :=
    Install.ExecTask dao
      (Install.getACLTransactionPath "createPermission"
         (Install.permission_params env ctx role)) in
  snd (Install.set_permissions env dao (start ctx)) =
  match Install.accounts ctx with
  | Some _ => mkTaskState ctx None None (map call (role :: rs))
  | None =>
      match Install.getAccounts env with
      | Returned acc =>
          mkTaskState (Install.set_accounts acc ctx) None None
            (Install.GetAccounts :: map call (role :: rs))
      | Thrown _ => mkTaskState ctx None None [Install.GetAccounts]
      end
  end.
Proof.
  intros Hr Hroles call.
  unfold Install.set_permissions, bind at 1, get_ctx. simpl.
  rewrite Hr, Hroles.
  remember (map (Install.create_permission env dao)
                (map (Install.permission_params env ctx) (role :: rs)))
    as calls eqn:Hcalls.
  unfold bind.
  destruct (Install.accounts ctx) as [acc |].
  - unfold ret at 1.
    pose proof (promise_all_create_permission
                  (map (Install.permission_params env ctx) (role :: rs)) (start ctx)) as P.
    rewrite <- Hcalls in P. rewrite map_map in P.
    destruct (Install.promise_all calls (start ctx)) as [[x | e] st2];
      simpl in P; subst st2; reflexivity.
  - unfold emit at 1, await at 1. simpl.
    destruct (Install.getAccounts env) as [acc | e]; [| reflexivity].
    unfold modify_ctx at 1. simpl.
    match goal with
    | |- context [Install.promise_all calls ?s] =>
        pose proof (promise_all_create_permission
                      (map (Install.permission_params env ctx) (role :: rs)) s) as P;
        rewrite <- Hcalls in P; rewrite map_map in P;
        destruct (Install.promise_all calls s) as [[x | e] st2]
    end; simpl in P; subst st2; reflexivity.
Qed.

Lemma set_permissions_skip_clean :
  skip_clean (Install.set_permissions env dao).
Proof.
  intros ctx u st msg H Hs.
  destruct (set_permissions_state ctx _ _ H) as [Hk _].
  congruence.
Qed.

Lemma install_tasks_skip_clean apmRepo a :
  Forall (fun s => skip_clean (task s)) (Install.tasks env dao apmRepo a).
Proof.
  unfold Install.tasks. repeat constructor; simpl.
  - apply getRepoTask_skip_clean.
  - apply checking_installed_version_skip_clean.
  - apply deploying_app_instance_skip_clean.
  - apply fetching_deployed_app_skip_clean.
  - apply set_permissions_skip_clean.
Qed.

End InstallSteps.

Section TokenSteps.
Variable env : TokenNew.Env.

Lemma listen_never_skips on_receipt on_hash sent
    (st st' : TaskState TokenNew.Ctx TokenNew.Effect) o :
  TokenNew.listen on_receipt on_hash sent st = (o, st') ->
  ts_skipped st' = ts_skipped st.
Proof.
  unfold TokenNew.listen. destruct sent as [h a | [h |] e]; unfold_task;
    intros H; inversion H; reflexivity.
Qed.

Lemma deploy_factory_never_skips from ctx o st :
  TokenNew.deploy_factory env from (start ctx) = (o, st) -> ts_skipped st = None.
Proof.
  unfold TokenNew.deploy_factory. unfold_task.
  destruct (TokenNew.estimateGas env _) as [g |]; [| intros H; inversion H; reflexivity].
  destruct (TokenNew.getRecommendedGasLimit env g) as [g' |];
    [| intros H; inversion H; reflexivity].
  intros H. apply listen_never_skips in H. exact H.
Qed.

Lemma deploy_token_never_skips from tfa name sym dec te ctx o st :
  TokenNew.deploy_token env from tfa name sym dec te (start ctx) = (o, st) ->
  ts_skipped st = None.
Proof.
  unfold TokenNew.deploy_token. unfold_task.
  destruct (TokenNew.estimateGas env _) as [g |]; [| intros H; inversion H; reflexivity].
  destruct (TokenNew.getRecommendedGasLimit env g) as [g' |];
    [| intros H; inversion H; reflexivity].
  intros H. apply listen_never_skips in H. exact H.
Qed.



Lemma token_tasks_skip_clean from tfa name sym dec te :
  Forall (fun s => skip_clean (task s)) (TokenNew.tasks env from tfa name sym dec te).
Proof.
  unfold TokenNew.tasks. repeat constructor; simpl; intros ctx u st msg H Hs.
  - apply deploy_factory_never_skips in H. congruence.
  - apply deploy_token_never_skips in H. congruence.
Qed.

End TokenSteps.

End StepFacts.

(** ** Strings *)

Module StringFacts.

Lemma prefix_app (sub rest : string) : prefix sub (sub ++ rest)%string = true.
Proof.
  induction sub as [| c sub IH]; simpl.
  - destruct rest; reflexivity.
  - destruct (ascii_dec c c) as [_ | N]; [exact IH | now elim N].
Qed.

Lemma includes_head (sub rest : string) : includes sub (sub ++ rest)%string = true.
Proof.
  pose proof (prefix_app sub rest) as P.
  destruct (sub ++ rest)%string; cbn [includes]; rewrite P; reflexivity.
Qed.

Lemma includes_tail (sub s : string) c :
  includes sub s = true -> includes sub (String c s) = true.
Proof. intros H. cbn [includes]. rewrite H. apply orb_true_r. Qed.

Lemma includes_app_l (sub before s : string) :
  includes sub s = true -> includes sub (before ++ s)%string = true.
Proof.
  intros H. induction before as [| c before IH]; simpl app.
  - exact H.
  - change (String c before ++ s)%string with (String c (before ++ s)%string).
    apply includes_tail, IH.
Qed.

End StringFacts.

(** ** The address pattern and case-insensitive comparison *)

Module WordFacts.
Import Words.

Lemma hex_run_spec n :
  forall s,
    hex_run n s = true <->
    exists digits rest : string,
      s = (digits ++ rest)%string /\ String.length digits = n /\ all_hex digits = true.
Proof.
  induction n as [| n IH]; intros s.
  - split; [intros _; now exists EmptyString, s |]. reflexivity.
  - destruct s as [| c r]; simpl.
    + split; [discriminate |].
      intros (digits & rest & E & L & _). destruct digits; discriminate.
    + rewrite andb_true_iff, IH. split.
      * intros (Hc & digits & rest & -> & L & H).
        exists (String c digits), rest. simpl. rewrite Hc, H, L. auto.
      * intros (digits & rest & E & L & H).
        destruct digits as [| d digits]; [discriminate L |].
        simpl in E, L, H. injection E as -> ->. injection L as L.
        apply andb_true_iff in H. destruct H as [Hd H].
        split; [exact Hd |]. now exists digits, rest.
Qed.

Lemma address_here_spec s :
  address_here s = true <->
  exists digits rest : string,
    s = ("0x" ++ digits ++ rest)%string /\
    String.length digits = 40 /\ all_hex digits = true.
Proof.
  unfold address_here. destruct s as [| c1 [| c2 r]].
  - split; [discriminate | intros (d & t & E & _); discriminate E].
  - split; [discriminate | intros (d & t & E & _); discriminate E].
  - rewrite !andb_true_iff, !Ascii.eqb_eq, hex_run_spec. split.
    + intros [[-> ->] (d & t & -> & L & H)]. now exists d, t.
    + intros (d & t & E & L & H). simpl in E. injection E as -> -> ->.
      split; [split; reflexivity |]. now exists d, t.
Qed.

Lemma address_re_test_unfold s :
  address_re_test s =
  address_here s || match s with
                    | EmptyString => false
                    | String _ r => address_re_test r
                    end.
Proof. destruct s; reflexivity. Qed.

(** The unanchored pattern finds an address wherever it starts. *)
Lemma address_re_test_spec s :
  address_re_test s = true <-> contains_address s.
Proof.
  unfold contains_address. split.
  - induction s as [| c r IH]; rewrite address_re_test_unfold, orb_true_iff.
    + intros [H | H]; [| discriminate H].
      apply address_here_spec in H. destruct H as (d & t & E & L & H).
      now exists EmptyString, d, t.
    + intros [H | H].
      * apply address_here_spec in H. destruct H as (d & t & E & L & H).
        now exists EmptyString, d, t.
      * destruct (IH H) as (b & d & t & -> & L & Hd).
        now exists (String c b), d, t.
  - intros (b & d & t & -> & L & H).
    induction b as [| c b IH]; rewrite address_re_test_unfold, orb_true_iff.
    + left. apply address_here_spec. now exists d, t.
    + right. exact IH.
Qed.

Lemma nat_of_lower_ascii c :
  nat_of_ascii (lower_ascii c) =
  if ((65 <=? nat_of_ascii c) && (nat_of_ascii c <=? 90))%nat
  then nat_of_ascii c + 32
  else nat_of_ascii c.
Proof.
  unfold lower_ascii.
  destruct ((65 <=? nat_of_ascii c) && (nat_of_ascii c <=? 90))%nat eqn:E; [| reflexivity].
  apply nat_ascii_embedding.
  apply andb_true_iff in E. destruct E as [_ E]. apply Nat.leb_le in E. lia.
Qed.

Lemma nat_of_ascii_inj c d : nat_of_ascii c = nat_of_ascii d -> c = d.
Proof.
  intros H. rewrite <- (ascii_nat_embedding c), <- (ascii_nat_embedding d), H. reflexivity.
Qed.

Lemma lower_ascii_eq c d :
  lower_ascii c = lower_ascii d <-> same_char_ignoring_case c d.
Proof.
  unfold same_char_ignoring_case, is_upper. split.
  - intros H. apply (f_equal nat_of_ascii) in H. rewrite !nat_of_lower_ascii in H.
    destruct (Nat.leb_spec 65 (nat_of_ascii c)), (Nat.leb_spec (nat_of_ascii c) 90),
      (Nat.leb_spec 65 (nat_of_ascii d)), (Nat.leb_spec (nat_of_ascii d) 90);
      simpl in H;
      first [ left; apply nat_of_ascii_inj; lia
            | right; left; lia
            | right; right; lia ].
  - intros H. apply nat_of_ascii_inj. rewrite !nat_of_lower_ascii.
    destruct H as [-> | [[Hu E] | [Hu E]]]; [reflexivity | |];
      destruct (Nat.leb_spec 65 (nat_of_ascii c)), (Nat.leb_spec (nat_of_ascii c) 90),
        (Nat.leb_spec 65 (nat_of_ascii d)), (Nat.leb_spec (nat_of_ascii d) 90);
      simpl; lia.
Qed.

Lemma toLowerCase_eq a :
  forall b, toLowerCase a = toLowerCase b <-> same_ignoring_case a b.
Proof.
  induction a as [| c a IH]; intros [| d b]; simpl; try (split; [discriminate | contradiction]).
  - split; auto.
  - rewrite <- IH, <- lower_ascii_eq. split.
    + intros H. injection H as H1 H2. now split.
    + intros [-> ->]. reflexivity.
Qed.

Lemma addressesEqual_spec a b :
  Install.addressesEqual a b = true <-> same_ignoring_case a b.
Proof.
  unfold Install.addressesEqual. rewrite String.eqb_eq. apply toLowerCase_eq.
Qed.

End WordFacts.


(** ** The claims of the specification *)

Module Claims.
Import Listr Pipeline RunnerFacts StepFacts Words Samples.

(** C1. Every pipeline that the install task or the token-new task builds
    runs its steps in declaration order: the first declared step is
    visited on the initial context, and after every visited step that did
    not throw the next declared step is visited on the context it left;
    each visited step was passed over because its [enabled] predicate was
    false, or its body was run. When the step at position [k] throws, the
    run is that of the first [k + 1] steps whatever follows them, so no
    later step executes, and it rejects with exactly the error thrown; the
    run rejects only so, and otherwise visits every step. A step that was
    passed over or skipped itself leaves the context unchanged. *)
Theorem pipelines_run_in_order_and_stop_at_the_first_throw :
  (forall env a steps, Install.task env a = Returned steps -> well_behaved steps) /\
  (forall env a steps, TokenNew.task env a = Returned steps -> well_behaved steps).
Proof.
  split; intros env a steps H.
  - unfold Install.task in H.
    destruct (Install.APM env) as [u | e]; [| discriminate].
    destruct (Install.resolve_dao env (Install.dao a)) as [dao | e]; [| discriminate].
    destruct (Install.Contract env dao) as [u' | e]; [| discriminate].
    injection H as <-. apply run_well_behaved, install_tasks_skip_clean.
  - unfold TokenNew.task in H.
    destruct (TokenNew.getAccounts env) as [accounts | e]; [| discriminate].
    destruct (TokenNew.getId env) as [chainId | e]; [| discriminate].
    injection H as <-. apply run_well_behaved, token_tasks_skip_clean.
Qed.

Lemma pipelines_run_in_order_witness :
  well_behaved
    (Install.tasks (install_env base_v2 (Some voting_roles) [deploy_log])
                   dao_address "voting.aragonpm.eth" (install_args (Some "open"))) /\
  well_behaved
    (TokenNew.tasks (token_env 1) (VStr dao_address)
                    (Some TokenNew.MAINNET_MINIME_TOKEN_FACTORY)
                    "Test Token" "TST" (VNum 18) (VBool true)).
Proof.
  split.
  - apply (proj1 pipelines_run_in_order_and_stop_at_the_first_throw
             (install_env base_v2 (Some voting_roles) [deploy_log])
             (install_args (Some "open"))).
    reflexivity.
  - apply (proj2 pipelines_run_in_order_and_stop_at_the_first_throw
             (token_env 1) (token_args None)).
    reflexivity.
Defined.


(** The version-mismatch message names the repo and the registered
    base it was built from. *)
Lemma version_mismatch_message_names apmRepo currentBase :
  includes currentBase (Install.version_mismatch_message apmRepo currentBase) = true /\
  includes apmRepo (Install.version_mismatch_message apmRepo currentBase) = true.
Proof.
  unfold Install.version_mismatch_message. split.
  - apply (StringFacts.includes_app_l _
             "Cannot install app on a different version. Currently installed version for ").
    apply (StringFacts.includes_app_l _ apmRepo).
    apply (StringFacts.includes_app_l _ " in the DAO is ").
    apply StringFacts.includes_head.
  - apply (StringFacts.includes_app_l _
             "Cannot install app on a different version. Currently installed version for ").
    apply StringFacts.includes_head.
Qed.

(** C2, as amended. Once the kernel has returned the registered base,
    the Checking-installed-version step throws exactly when that base is
    not the zero-address constant and is not, ignoring case, the repo's
    contract address. On the zero address it skips, touching nothing; on
    the repo's own address it returns, touching nothing; otherwise the
    error is the version-mismatch message, which names the repo and the
    registered base. *)
Theorem checking_installed_version_outcomes
    env dao apmRepo ctx r ns currentBase :
  Install.repo ctx = Some r ->
  Install.APP_BASES_NAMESPACE env dao = Returned ns ->
  Install.getApp env dao ns (Install.appId r) = Returned currentBase ->
  let out := Install.checking_installed_version env dao apmRepo (start ctx) in
  let message := Install.version_mismatch_message apmRepo currentBase in
  ((exists e, fst out = Thrown e) <->
   currentBase <> Install.ZERO_ADDRESS env /\
   Install.addressesEqual currentBase (Install.contractAddress r) = false) /\
  (currentBase = Install.ZERO_ADDRESS env ->
   out = (Returned tt,
          mkTaskState ctx
            (Some ("Installing the first instance of " ++ apmRepo ++ " in DAO")%string)
            None [])) /\
  (currentBase <> Install.ZERO_ADDRESS env ->
   Install.addressesEqual currentBase (Install.contractAddress r) = true ->
   out = (Returned tt, start ctx)) /\
  (currentBase <> Install.ZERO_ADDRESS env ->
   Install.addressesEqual currentBase (Install.contractAddress r) = false ->
   out = (Thrown (new_Error message), start ctx) /\
   includes currentBase message = true /\
   includes apmRepo message = true).
Proof.
  intros Hr Hns Hbase out message. subst out.
  unfold Install.checking_installed_version. unfold_task.
  rewrite Hns, Hr, Hbase.
  destruct (currentBase =? Install.ZERO_ADDRESS env) eqn:Hz.
  - apply String.eqb_eq in Hz.
    split; [split | split; [| split]].
    + intros [e He]. discriminate He.
    + intros [Hn _]. contradiction.
    + reflexivity.
    + intros Hn. contradiction.
    + intros Hn. contradiction.
  - apply String.eqb_neq in Hz.
    destruct (Install.addressesEqual currentBase (Install.contractAddress r)) eqn:Heq; simpl.
    + split; [split | split; [| split]].
      * intros [e He]. discriminate He.
      * intros [_ Hf]. discriminate Hf.
      * intros Hn. contradiction.
      * reflexivity.
      * intros _ Hf. discriminate Hf.
    + split; [split | split; [| split]].
      * intros _. split; [exact Hz | reflexivity].
      * intros _. eexists. reflexivity.
      * intros Hn. contradiction.
      * intros _ Hf. discriminate Hf.
      * intros _ _. split; [reflexivity |].
        apply version_mismatch_message_names.
Qed.

Lemma checking_installed_version_outcomes_witness :
  let out :=
    Install.checking_installed_version
      (install_env base_v1 (Some voting_roles) []) dao_address "voting.aragonpm.eth"
      (start (ctx_with_repo (Some voting_roles))) in
  (exists e, fst out = Thrown e) <->
  base_v1 <> zero_address /\ Install.addressesEqual base_v1 base_v2 = false.
Proof.
  exact (proj1 (checking_installed_version_outcomes
                  (install_env base_v1 (Some voting_roles) []) dao_address
                  "voting.aragonpm.eth" (ctx_with_repo (Some voting_roles))
                  (voting_repo (Some voting_roles)) "0xf1f3eb40" base_v1
                  eq_refl eq_refl eq_refl)).
Defined.

(** C2 as the spec words it fails on its last clause: with base
    [0x11..11] registered and the repo at [0x22..22] the step throws, and
    the message it throws does not name the repo's contract address. *)
Lemma version_mismatch_error_omits_the_repo_address :
  let out :=
    Install.checking_installed_version
      (install_env base_v1 (Some voting_roles) []) dao_address "voting.aragonpm.eth"
      (start (ctx_with_repo (Some voting_roles))) in
  ~ (forall e, fst out = Thrown e ->
               includes base_v1 (err_message e) = true /\
               includes base_v2 (err_message e) = true) /\
  exists e, fst out = Thrown e /\
            includes base_v1 (err_message e) = true /\
            includes base_v2 (err_message e) = false.
Proof.
  split.
  - intros H. specialize (H _ eq_refl). destruct H as [_ H]. vm_compute in H. discriminate H.
  - eexists. split; [reflexivity | split; vm_compute; reflexivity].
Qed.


(** C3. When the resolved repo declares no role, [roles] missing or the
    empty list, the Set-permissions step throws the guidance error from
    the state it started in: no request has been made, so no
    create-permission transaction was built or submitted; in a run the
    step's entry records no request and the run rejects with that
    error. *)
Theorem set_permissions_without_roles_throws_before_any_transaction
    env dao r (st : TaskState Install.Ctx Install.Effect) :
  Install.repo (ts_ctx st) = Some r ->
  Install.roles r = None \/ Install.roles r = Some [] ->
  Install.set_permissions env dao st =
    (Thrown (new_Error Install.no_roles_message), st) /\
  Install.transactions
    (ts_effects (snd (Install.set_permissions env dao (start (ts_ctx st))))) = [] /\
  forall apmRepo a,
    Install.set_permissions_enabled a (ts_ctx st) = true ->
    run_steps (skipn 4 (Install.tasks env dao apmRepo a)) (ts_ctx st) =
    mkRun [mkEntry "Set permissions" (Failed (new_Error Install.no_roles_message))
                   (ts_ctx st) (ts_ctx st) []]
          (ts_ctx st) (Some (new_Error Install.no_roles_message)).
Proof.
  intros Hr Hroles.
  assert (forall s : TaskState Install.Ctx Install.Effect,
             Install.repo (ts_ctx s) = Some r ->
             Install.set_permissions env dao s =
             (Thrown (new_Error Install.no_roles_message), s)) as Hthrow.
  { intros s Hs. unfold Install.set_permissions, bind at 1, get_ctx. simpl.
    rewrite Hs. destruct Hroles as [-> | ->]; reflexivity. }
  split; [exact (Hthrow st Hr) | split].
  - rewrite (Hthrow (start (ts_ctx st)) Hr). reflexivity.
  - intros apmRepo a Hen. simpl skipn.
    rewrite (run_steps_thrown
               (mkStep "Set permissions" (Some (Install.set_permissions_enabled a))
                       (Install.set_permissions env dao))
               [] (ts_ctx st) _ _ Hen (Hthrow (start (ts_ctx st)) Hr)).
    reflexivity.
Qed.

Lemma set_permissions_without_roles_witness :
  Install.set_permissions (install_env base_v2 None []) dao_address
    (start (Install.set_appAddress (Some proxy_address) (ctx_with_repo None))) =
  (Thrown (new_Error Install.no_roles_message),
   start (Install.set_appAddress (Some proxy_address) (ctx_with_repo None))).
Proof.
  exact (proj1 (set_permissions_without_roles_throws_before_any_transaction
                  (install_env base_v2 None []) dao_address (voting_repo None)
                  (start (Install.set_appAddress (Some proxy_address) (ctx_with_repo None)))
                  eq_refl (or_introl eq_refl))).
Defined.

(** C6, as amended. When the Set-permissions step runs on a repo with a
    non-empty role list and a deployed app address, and the accounts are
    at hand (in the context, or returned by the accounts request), the
    transactions it submits are exactly one [createPermission] per
    declared role, in the order declared, each with [ANY_ENTITY], the
    app address, the role's bytes and [NO_MANAGER]. When the context has
    no accounts and the accounts request throws, it submits none. *)
Theorem set_permissions_submits_one_permission_per_role
    env dao ctx r rs app :
  Install.repo ctx = Some r ->
  Install.roles r = Some rs ->
  rs <> [] ->
  Install.appAddress ctx = Some app ->
  let submitted :=
    Install.transactions (ts_effects (snd (Install.set_permissions env dao (start ctx)))) in
  ((Install.accounts ctx <> None \/ exists acc, Install.getAccounts env = Returned acc) ->
   submitted =
     map (fun role =>
            (dao,
             Install.getACLTransactionPath "createPermission"
               [VStr (Install.ANY_ENTITY env); VStr app; VStr (Install.role_bytes role);
                VStr (Install.NO_MANAGER env)]))
         rs /\
   length submitted = length rs) /\
  (Install.accounts ctx = None ->
   forall e, Install.getAccounts env = Thrown e -> submitted = []).
Proof.
  intros Hr Hroles Hne Happ submitted. subst submitted.
  destruct rs as [| role rs']; [contradiction |].
  rewrite (set_permissions_with_roles env dao ctx r role rs' Hr Hroles).
  split.
  - intros Hacc.
    assert (forall l : list Install.Role,
               Install.transactions
                 (map (fun role0 =>
                         Install.ExecTask dao
                           (Install.getACLTransactionPath "createPermission"
                              (Install.permission_params env ctx role0))) l) =
               map (fun role0 =>
                      (dao,
                       Install.getACLTransactionPath "createPermission"
                         [VStr (Install.ANY_ENTITY env); VStr app;
                          VStr (Install.role_bytes role0);
                          VStr (Install.NO_MANAGER env)])) l) as T.
    { induction l as [| x l IH]; [reflexivity |].
      simpl. unfold Install.permission_params at 1. rewrite Happ. simpl.
      f_equal. exact IH. }
    assert (Install.transactions
              (ts_effects
                 match Install.accounts ctx with
                 | Some _ =>
                     mkTaskState ctx None None
                       (map (fun role0 =>
                               Install.ExecTask dao
                                 (Install.getACLTransactionPath "createPermission"
                                    (Install.permission_params env ctx role0)))
                            (role :: rs'))
                 | None =>
                     match Install.getAccounts env with
                     | Returned acc =>
                         mkTaskState (Install.set_accounts acc ctx) None None
                           (Install.GetAccounts
                            :: map (fun role0 =>
                                      Install.ExecTask dao
                                        (Install.getACLTransactionPath "createPermission"
                                           (Install.permission_params env ctx role0)))
                                   (role :: rs'))
                     | Thrown _ => mkTaskState ctx None None [Install.GetAccounts]
                     end
                 end) =
            map (fun role0 =>
                   (dao,
                    Install.getACLTransactionPath "createPermission"
                      [VStr (Install.ANY_ENTITY env); VStr app;
                       VStr (Install.role_bytes role0); VStr (Install.NO_MANAGER env)]))
                (role :: rs')) as E.
    { destruct (Install.accounts ctx) as [acc |].
      - exact (T (role :: rs')).
      - destruct Hacc as [Hacc | [acc Hacc]]; [contradiction |].
        rewrite Hacc. exact (T (role :: rs')). }
    split; [exact E |]. rewrite E. apply length_map.
  - intros Hnone e He. rewrite Hnone, He. reflexivity.
Qed.

Lemma set_permissions_submits_one_permission_per_role_witness :
  length
    (Install.transactions
       (ts_effects
          (snd (Install.set_permissions
                  (install_env base_v2 (Some voting_roles) [deploy_log]) dao_address
                  (start ctx_with_app))))) = 2.
Proof.
  refine (proj2 (proj1 (set_permissions_submits_one_permission_per_role
                          (install_env base_v2 (Some voting_roles) [deploy_log]) dao_address
                          ctx_with_app (voting_repo (Some voting_roles)) voting_roles
                          proxy_address eq_refl eq_refl _ eq_refl)
                       (or_intror (ex_intro _ [dao_address] eq_refl)))).
  discriminate.
Defined.

(** C6 as the spec words it fails when the accounts cannot be had: on a
    context with the app address and no accounts, with the option "open"
    and two declared roles, the step is enabled and runs, the accounts
    request throws, and no create-permission transaction is submitted. *)
Lemma set_permissions_submits_nothing_without_accounts :
  let env := install_env_without_accounts base_v2 (Some voting_roles) [deploy_log] in
  let out := Install.set_permissions env dao_address (start ctx_with_app) in
  Install.set_permissions_enabled (install_args (Some "open")) ctx_with_app = true /\
  Install.repo ctx_with_app = Some (voting_repo (Some voting_roles)) /\
  Install.roles (voting_repo (Some voting_roles)) = Some voting_roles /\
  length voting_roles = 2 /\
  Install.transactions (ts_effects (snd out)) = [] /\
  ~ (length (Install.transactions (ts_effects (snd out))) = length voting_roles).
Proof.
  repeat split. intros H. discriminate H.
Qed.

(** C5. With the NewAppProxy event in the kernel ABI and a receipt in
    the context, the Fetching-deployed-app step looks for a log whose
    first topic is the hash of the event signature and whose address is
    the DAO's. When the receipt has one, [ctx.appAddress] becomes the
    [proxy] property decoded from the data of that log (the first such
    log, should there be several) and nothing else changes; when it has
    none, the step skips with its warning, the context stays as it was,
    and the run goes on with the next step. *)
Theorem fetching_deployed_app_sets_the_decoded_proxy
    env dao ctx logABI rc :
  find Install.is_NewAppProxy (Install.kernelABI env) = Some logABI ->
  Install.receipt ctx = Some rc ->
  let logTopic := Install.sha3 env (Install.logSignature logABI) in
  let proxy_of l :=
    Install.decodeLog env (Install.abi_inputs logABI) (Install.data l) "proxy" in
  let out := Install.fetching_deployed_app env dao (start ctx) in
  let step := mkStep "Fetching deployed app" None (Install.fetching_deployed_app env dao) in
  (forall l,
      Install.is_deploy_log dao logTopic l = true <->
      exists t ts,
        Install.topics l = t :: ts /\ t = logTopic /\
        Install.addressesEqual dao (Install.address l) = true) /\
  (forall before l after,
      Install.logs rc = before ++ l :: after ->
      Install.is_deploy_log dao logTopic l = true ->
      (forall x, In x before -> Install.is_deploy_log dao logTopic x = false) ->
      out = (Returned tt, start (Install.set_appAddress (proxy_of l) ctx))) /\
  ((exists l, In l (Install.logs rc) /\ Install.is_deploy_log dao logTopic l = true) ->
   exists l,
     In l (Install.logs rc) /\ Install.is_deploy_log dao logTopic l = true /\
     out = (Returned tt, start (Install.set_appAddress (proxy_of l) ctx)) /\
     Install.appAddress (ts_ctx (snd out)) = proxy_of l) /\
  ((forall l, In l (Install.logs rc) -> Install.is_deploy_log dao logTopic l = false) ->
   out = (Returned tt,
          mkTaskState ctx (Some "App wasn't deployed in transaction.") None []) /\
   forall rest,
     run_steps (step :: rest) ctx =
     logged (mkEntry "Fetching deployed app"
                     (Skipped "App wasn't deployed in transaction.") ctx ctx [])
            (run_steps rest ctx)).
Proof.
  intros Habi Hrc logTopic proxy_of out step.
  split; [| split; [| split]].
  - intros l. apply is_deploy_log_spec.
  - intros before l after Hlogs Hl Hbefore. subst out.
    apply (fetching_deployed_app_found env dao ctx logABI rc l Habi Hrc).
    rewrite Hlogs. apply FindFacts.find_first; assumption.
  - intros (l & Hin & Hl).
    destruct (FindFacts.find_something _ _ _ Hin Hl) as (y & Hfind & Hy & Hfy).
    exists y. split; [exact Hy | split; [exact Hfy |]].
    subst out.
    rewrite (fetching_deployed_app_found env dao ctx logABI rc y Habi Hrc Hfind).
    split; reflexivity.
  - intros Hnone.
    pose proof (fetching_deployed_app_absent env dao ctx logABI rc Habi Hrc
                  (FindFacts.find_nothing _ _ Hnone)) as E.
    split; [exact E |].
    intros rest.
    rewrite (run_steps_returned step rest ctx tt _ eq_refl E). reflexivity.
Qed.

Lemma fetching_deployed_app_witness :
  Install.fetching_deployed_app
    (install_env base_v2 (Some voting_roles) [other_log; deploy_log]) dao_address
    (start (ctx_with_receipt [other_log; deploy_log])) =
  (Returned tt,
   start (Install.set_appAddress (Some proxy_address)
            (ctx_with_receipt [other_log; deploy_log]))).
Proof.
  refine (proj1 (proj2 (fetching_deployed_app_sets_the_decoded_proxy
                          (install_env base_v2 (Some voting_roles) [other_log; deploy_log])
                          dao_address (ctx_with_receipt [other_log; deploy_log])
                          NewAppProxy_abi
                          (Install.mkReceipt [other_log; deploy_log])
                          eq_refl eq_refl))
                [other_log] deploy_log [] eq_refl eq_refl _).
  intros x [<- | []]. reflexivity.
Defined.


(** C4. In a run of the install pipeline, the Set-permissions step
    executes exactly when the set-permissions option is "open" and the
    decode step before it was reached, did not throw, and left a
    non-empty [ctx.appAddress]; its [enabled] predicate is that test on
    the context it is given; and on a run that starts without
    [ctx.appAddress], an address left by the decode step is one that
    step produced by completing. *)
Theorem set_permissions_runs_iff_open_and_proxy env dao apmRepo a ctx0 :
  let run := run_steps (Install.tasks env dao apmRepo a) ctx0 in
  ((exists en, nth_error (run_log run) 4 = Some en /\ en_status en <> Disabled) <->
   (Install.setPermissions a = Some "open" /\
    exists en3 proxy,
      nth_error (run_log run) 3 = Some en3 /\
      (forall e, en_status en3 <> Failed e) /\
      Install.appAddress (en_after en3) = Some proxy /\ proxy <> "")) /\
  (forall ctx,
      Install.set_permissions_enabled a ctx = true <->
      Install.setPermissions a = Some "open" /\
      exists proxy, Install.appAddress ctx = Some proxy /\ proxy <> "") /\
  (Install.appAddress ctx0 = None ->
   forall en3 proxy,
     nth_error (run_log run) 3 = Some en3 ->
     Install.appAddress (en_after en3) = Some proxy ->
     en_title en3 = "Fetching deployed app" /\
     en_status en3 = Completed /\
     Install.appAddress (en_before en3) = None).
Proof.
  intros run. split; [| split].
  - split.
    + intros (en & H4 & Hst).
      destruct (run_log_next _ _ _ _ H4) as (en3 & H3 & Hb & Hnf).
      destruct (run_log_entry _ _ _ _ H4) as (s & Hs & _ & [(_ & Hd & _) | (Hen & _)]).
      * contradiction.
      * simpl in Hs. injection Hs as <-.
        apply set_permissions_enabled_spec in Hen.
        destruct Hen as (Hopen & proxy & Hp & Hne).
        split; [exact Hopen |]. exists en3, proxy.
        rewrite <- Hb. repeat split; assumption.
    + intros (Hopen & en3 & proxy & H3 & Hnf & Hp & Hne).
      destruct (run_log_continues _ _ _ _ _ H3 Hnf eq_refl) as (en & H4 & Hb).
      exists en. split; [exact H4 |].
      destruct (run_log_entry _ _ _ _ H4) as (s & Hs & _ & [(Hen & _) | (_ & o & st & _ & _ & _ & ->)]).
      * simpl in Hs. injection Hs as <-.
        assert (Install.set_permissions_enabled a (en_before en) = true) as T.
        { apply set_permissions_enabled_spec. split; [exact Hopen |].
          exists proxy. rewrite Hb. now split. }
        unfold is_enabled in Hen. simpl in Hen. congruence.
      * destruct o; [apply status_of_not_disabled | discriminate].
  - intros ctx. apply set_permissions_enabled_spec.
  - intros H0 en3 proxy H3 Hp.
    pose proof (appAddress_before_decoding env dao apmRepo a ctx0 en3 H3) as Hb.
    rewrite H0 in Hb.
    destruct (run_log_entry _ _ _ _ H3) as (s & Hs & Ht & [(_ & _ & Ha & _) | (_ & o & st & Hrun & Ha & _ & Hst)]).
    + rewrite Ha in Hp. congruence.
    + simpl in Hs. injection Hs as <-. simpl in Ht, Hrun.
      split; [exact Ht | split; [| exact Hb]].
      destruct (fetching_deployed_app_cases env dao _ _ _ Hrun) as [Hc | [-> Hk]].
      * rewrite Ha, Hc in Hp. congruence.
      * rewrite Hst. unfold status_of. now rewrite Hk.
Qed.


(** C7. In the token-new task, with no factory address supplied
    (absent, or the empty string), chain id 1 selects the mainnet
    constant 0x909d05f384d0663ed4be59863815ab43b4f347ec and chain id 4
    the Rinkeby constant 0xad991658443c56b3dE2D7d7f5d8C68F339aEef29; a
    supplied address is kept on every chain; and the steps the task
    builds are built on the address so chosen. *)
Theorem token_factory_defaults_by_chain_id :
  TokenNew.MAINNET_MINIME_TOKEN_FACTORY = "0x909d05f384d0663ed4be59863815ab43b4f347ec" /\
  TokenNew.RINKEBY_MINIME_TOKEN_FACTORY = "0xad991658443c56b3dE2D7d7f5d8C68F339aEef29" /\
  (forall supplied,
      truthy (of_opt supplied) = false ->
      TokenNew.default_factory 1 supplied = Some TokenNew.MAINNET_MINIME_TOKEN_FACTORY /\
      TokenNew.default_factory 4 supplied = Some TokenNew.RINKEBY_MINIME_TOKEN_FACTORY) /\
  (forall chainId address,
      address <> "" ->
      TokenNew.default_factory chainId (Some address) = Some address) /\
  (forall env a accounts chainId,
      TokenNew.getAccounts env = Returned accounts ->
      TokenNew.getId env = Returned chainId ->
      TokenNew.task env a =
      Returned
        (TokenNew.tasks env (of_opt (hd_error accounts))
           (TokenNew.default_factory chainId (TokenNew.tokenFactoryAddress a))
           (TokenNew.tokenName a) (TokenNew.symbol a) (TokenNew.decimalUnits a)
           (TokenNew.parseStringIfPossible env (TokenNew.transferEnabled a)))).
Proof.
  split; [reflexivity | split; [reflexivity | split; [| split]]].
  - intros supplied Hf. unfold TokenNew.default_factory, or_else. simpl Z.eqb.
    cbv iota. rewrite Hf. split; reflexivity.
  - intros chainId address Hne.
    assert (truthy (of_opt (Some address)) = true) as Ht.
    { simpl. now rewrite negb_true_iff, String.eqb_neq. }
    unfold TokenNew.default_factory, or_else. rewrite Ht.
    destruct (chainId =? 1)%Z; rewrite ?Ht; destruct (chainId =? 4)%Z; rewrite ?Ht;
      reflexivity.
  - intros env a accounts chainId Hacc Hid. unfold TokenNew.task.
    rewrite Hacc, Hid. reflexivity.
Qed.

Lemma token_factory_defaults_witness :
  TokenNew.default_factory 1 None = Some "0x909d05f384d0663ed4be59863815ab43b4f347ec" /\
  TokenNew.default_factory 4 (Some "") = Some "0xad991658443c56b3dE2D7d7f5d8C68F339aEef29" /\
  TokenNew.default_factory 1 (Some factory_address) = Some factory_address.
Proof.
  destruct token_factory_defaults_by_chain_id as (_ & _ & Hdefault & Hkept & _).
  split; [exact (proj1 (Hdefault None eq_refl)) | split].
  - exact (proj2 (Hdefault (Some "") eq_refl)).
  - apply Hkept. discriminate.
Defined.



(** C9. In the install task the DAO argument is used as it is whenever
    [0x] followed by forty hexadecimal digits occurs anywhere in it, the
    pattern being unanchored: the ENS resolver is not consulted, and once
    the APM client is built the kernel contract is constructed on the
    argument itself and, if web3 accepts it, the steps are built on it.
    Only an argument with no such substring goes to the ENS resolver. *)
Theorem dao_argument_holding_an_address_bypasses_ens env :
  (forall s, address_re_test s = true <-> contains_address s) /\
  (forall dao, contains_address dao -> Install.resolve_dao env dao = Returned dao) /\
  (forall dao,
      ~ contains_address dao ->
      Install.resolve_dao env dao = Install.resolveEnsDomain env dao) /\
  (forall a u,
      contains_address (Install.dao a) ->
      Install.APM env = Returned u ->
      Install.task env a =
      match Install.Contract env (Install.dao a) with
      | Returned _ =>
          Returned (Install.tasks env (Install.dao a)
                      (Install.defaultAPMName env (Install.apmRepo a)) a)
      | Thrown e => Thrown e
      end).
Proof.
  assert (forall dao, contains_address dao -> Install.resolve_dao env dao = Returned dao) as Hkeep.
  { intros dao H. apply WordFacts.address_re_test_spec in H.
    unfold Install.resolve_dao. now rewrite H. }
  split; [exact WordFacts.address_re_test_spec | split; [exact Hkeep | split]].
  - intros dao H. unfold Install.resolve_dao.
    destruct (address_re_test dao) eqn:E; [| reflexivity].
    apply WordFacts.address_re_test_spec in E. contradiction.
  - intros a u H Hapm. unfold Install.task. rewrite Hapm, (Hkeep _ H).
    destruct (Install.Contract env (Install.dao a)); reflexivity.
Qed.

Lemma dao_argument_holding_an_address_witness :
  Install.resolve_dao (install_env base_v2 None [])
    "see 0x5b6a3301a67A4bfda9D3a528CaD34cac6e7F8070 here" =
  Returned "see 0x5b6a3301a67A4bfda9D3a528CaD34cac6e7F8070 here".
Proof.
  apply (proj1 (proj2 (dao_argument_holding_an_address_bypasses_ens
                         (install_env base_v2 None [])))).
  exists "see ", "5b6a3301a67A4bfda9D3a528CaD34cac6e7F8070", " here".
  split; [reflexivity | split; reflexivity].
Defined.

(** C10. [addressesEqual] holds exactly of two strings that are equal
    ignoring the case of their letters. The installed-version check
    compares the registered base with the repo's contract address that way,
    and the decode step matches a log's address against the DAO that way;
    the unset-base test is the exact equality of the returned string with
    the zero-address constant. *)
Theorem address_comparisons_ignore_case_except_for_zero :
  (forall a b, Install.addressesEqual a b = true <-> same_ignoring_case a b) /\
  (forall env dao apmRepo ctx r ns currentBase,
      Install.repo ctx = Some r ->
      Install.APP_BASES_NAMESPACE env dao = Returned ns ->
      Install.getApp env dao ns (Install.appId r) = Returned currentBase ->
      let out := Install.checking_installed_version env dao apmRepo (start ctx) in
      ((exists msg, ts_skipped (snd out) = Some msg) <->
       currentBase = Install.ZERO_ADDRESS env) /\
      ((exists e, fst out = Thrown e) <->
       currentBase <> Install.ZERO_ADDRESS env /\
       ~ same_ignoring_case currentBase (Install.contractAddress r))) /\
  (forall dao logTopic l,
      Install.is_deploy_log dao logTopic l = true <->
      exists t ts,
        Install.topics l = t :: ts /\ t = logTopic /\
        same_ignoring_case dao (Install.address l)).
Proof.
  split; [exact WordFacts.addressesEqual_spec | split].
  - intros env dao apmRepo ctx r ns currentBase Hr Hns Hbase out. subst out.
    rewrite (checking_installed_version_run env dao apmRepo ctx r ns currentBase Hr Hns Hbase).
    destruct (currentBase =? Install.ZERO_ADDRESS env) eqn:Hz.
    + apply String.eqb_eq in Hz. split; split.
      * intros _. exact Hz.
      * intros _. eexists. reflexivity.
      * intros [e He]. discriminate He.
      * intros [Hn _]. contradiction.
    + apply String.eqb_neq in Hz.
      destruct (Install.addressesEqual currentBase (Install.contractAddress r)) eqn:Heq.
      * apply WordFacts.addressesEqual_spec in Heq. split; split.
        -- intros [msg Hm]. discriminate Hm.
        -- intros Hc. contradiction.
        -- intros [e He]. discriminate He.
        -- intros [_ Hn]. contradiction.
      * split; split.
        -- intros [msg Hm]. discriminate Hm.
        -- intros Hc. contradiction.
        -- intros _. split; [exact Hz |].
           intros Hs. apply WordFacts.addressesEqual_spec in Hs. congruence.
        -- intros _. eexists. reflexivity.
  - intros dao logTopic l. rewrite is_deploy_log_spec. split.
    + intros (t & ts & Ht & Hl & Ha). exists t, ts.
      apply WordFacts.addressesEqual_spec in Ha. auto.
    + intros (t & ts & Ht & Hl & Ha). exists t, ts.
      apply WordFacts.addressesEqual_spec in Ha. auto.
Qed.

Lemma address_comparisons_witness :
  let out :=
    Install.checking_installed_version
      (install_env "0X0000000000000000000000000000000000000000" (Some voting_roles) [])
      dao_address "voting.aragonpm.eth" (start (ctx_with_repo (Some voting_roles))) in
  ((exists msg, ts_skipped (snd out) = Some msg) <->
   "0X0000000000000000000000000000000000000000" = zero_address) /\
  ((exists e, fst out = Thrown e) <->
   "0X0000000000000000000000000000000000000000" <> zero_address /\
   ~ same_ignoring_case "0X0000000000000000000000000000000000000000" base_v2).
Proof.
  exact (proj1 (proj2 address_comparisons_ignore_case_except_for_zero)
           (install_env "0X0000000000000000000000000000000000000000" (Some voting_roles) [])
           dao_address "voting.aragonpm.eth" (ctx_with_repo (Some voting_roles))
           (voting_repo (Some voting_roles)) "0xf1f3eb40"
           "0X0000000000000000000000000000000000000000" eq_refl eq_refl eq_refl).
Defined.

End Claims.


(** ** Beyond the claims: the rest of the two commands *)

Module Extras.
Import Listr Pipeline RunnerFacts StepFacts Words Samples Handlers.

Section Runs.
Context {Ctx Eff : Type}.

(** The runner on a non-empty step list: the head's entry, and either
    the end of the run on its throw or the run of the tail. *)
Lemma run_steps_head (s : Step Ctx Eff) rest ctx :
  exists en,
    entry_of s en /\ en_before en = ctx /\
    ((exists e,
         en_status en = Failed e /\
         run_steps (s :: rest) ctx = mkRun [en] (en_after en) (Some e)) \/
     ((forall e, en_status en <> Failed e) /\
      run_steps (s :: rest) ctx = logged en (run_steps rest (en_after en)))).
Proof.
  destruct (is_enabled s ctx) eqn:En.
  - destruct (task s (start ctx)) as [[u | e] st] eqn:Et.
    + exists (mkEntry (title s) (status_of st) ctx (ts_ctx st) (ts_effects st)).
      split; [| split; [reflexivity | right]].
      * split; [reflexivity | right]. simpl. split; [exact En |].
        exists (Returned u), st. repeat split. exact Et.
      * split; [intros e; apply status_of_not_failed |].
        apply (run_steps_returned s rest ctx u st En Et).
    + exists (mkEntry (title s) (Failed e) ctx (ts_ctx st) (ts_effects st)).
      split; [| split; [reflexivity | left]].
      * split; [reflexivity | right]. simpl. split; [exact En |].
        exists (Thrown e), st. repeat split. exact Et.
      * exists e. split; [reflexivity |].
        apply (run_steps_thrown s rest ctx e st En Et).
  - exists (mkEntry (title s) Disabled ctx ctx []).
    split; [| split; [reflexivity | right]].
    + split; [reflexivity | left]. simpl. repeat split. exact En.
    + split; [discriminate |]. apply (run_steps_disabled s rest ctx En).
Qed.

Lemma requests_logged (en : Entry Ctx Eff) r :
  requests (logged en r) = en_effects en ++ requests r.
Proof. reflexivity. Qed.

(** The entry of a step that has no [enabled] predicate. *)
Lemma entry_of_always (s : Step Ctx Eff) en :
  enabled s = None ->
  entry_of s en ->
  exists o st,
    task s (start (en_before en)) = (o, st) /\
    en_after en = ts_ctx st /\
    en_effects en = ts_effects st /\
    en_status en = match o with
                   | Returned _ => status_of st
                   | Thrown e => Failed e
                   end.
Proof.
  intros Hn [_ [(Hd & _) | (_ & H)]]; [| exact H].
  unfold is_enabled in Hd. rewrite Hn in Hd. discriminate Hd.
Qed.

End Runs.

Lemma length_append (a b : string) :
  String.length (a ++ b)%string = String.length a + String.length b.
Proof. induction a as [| c a IH]; simpl; [reflexivity | now rewrite IH]. Qed.

(** X1. The DAO argument can only be taken for an address when it is at
    least forty-two characters long: anything shorter goes to the ENS
    resolver. *)
Theorem short_dao_arguments_go_to_ens env dao :
  String.length dao < 42 ->
  address_re_test dao = false /\
  Install.resolve_dao env dao = Install.resolveEnsDomain env dao.
Proof.
  intros Hlen.
  assert (address_re_test dao = false) as Hf.
  { destruct (address_re_test dao) eqn:E; [| reflexivity].
    apply WordFacts.address_re_test_spec in E.
    destruct E as (b & d & t & -> & L & _).
    rewrite length_append in Hlen. simpl in Hlen.
    rewrite length_append, L in Hlen. exfalso. lia. }
  split; [exact Hf |]. unfold Install.resolve_dao. now rewrite Hf.
Qed.

Lemma short_dao_arguments_go_to_ens_witness :
  Install.resolve_dao (install_env base_v2 None []) "mydao.aragonid.eth" =
  Thrown (new_Error "ENS domain not found").
Proof.
  refine (proj2 (short_dao_arguments_go_to_ens
                   (install_env base_v2 None []) "mydao.aragonid.eth" _)).
  simpl. lia.
Defined.

Lemma lower_ascii_idempotent c : lower_ascii (lower_ascii c) = lower_ascii c.
Proof.
  apply WordFacts.nat_of_ascii_inj. rewrite !WordFacts.nat_of_lower_ascii.
  set (n := nat_of_ascii c).
  destruct ((65 <=? n) && (n <=? 90))%nat eqn:E.
  - apply andb_true_iff in E. destruct E as [E _]. apply Nat.leb_le in E.
    assert ((n + 32 <=? 90)%nat = false) as F by (apply Nat.leb_gt; lia).
    rewrite F, andb_false_r. reflexivity.
  - rewrite E. reflexivity.
Qed.

Lemma toLowerCase_idempotent s : toLowerCase (toLowerCase s) = toLowerCase s.
Proof.
  induction s as [| c s IH]; simpl; [reflexivity |].
  now rewrite lower_ascii_idempotent, IH.
Qed.

Lemma toLowerCase_length s : String.length (toLowerCase s) = String.length s.
Proof. induction s as [| c s IH]; simpl; [reflexivity | now rewrite IH]. Qed.

(** X2. [addressesEqual] is an equivalence on strings: reflexive,
    symmetric and transitive. On strings of ASCII characters, where
    lowercasing touches the letters A to Z only, a string equals its own
    lowercase form, and two strings it equates have the same length. *)
Theorem addressesEqual_is_an_equivalence :
  (forall a, Install.addressesEqual a a = true) /\
  (forall a b, Install.addressesEqual a b = Install.addressesEqual b a) /\
  (forall a b c,
      Install.addressesEqual a b = true ->
      Install.addressesEqual b c = true ->
      Install.addressesEqual a c = true) /\
  (forall a, all_ascii a = true -> Install.addressesEqual a (toLowerCase a) = true) /\
  (forall a b,
      all_ascii a = true -> all_ascii b = true ->
      Install.addressesEqual a b = true -> String.length a = String.length b).
Proof.
  unfold Install.addressesEqual. repeat split.
  - intros a. apply String.eqb_refl.
  - intros a b. apply String.eqb_sym.
  - intros a b c Hab Hbc. apply String.eqb_eq in Hab, Hbc. apply String.eqb_eq. congruence.
  - intros a _. rewrite toLowerCase_idempotent. apply String.eqb_refl.
  - intros a b _ _ H. apply String.eqb_eq in H.
    rewrite <- (toLowerCase_length a), <- (toLowerCase_length b), H. reflexivity.
Qed.

Lemma addressesEqual_is_an_equivalence_witness :
  Install.addressesEqual dao_address "0x5B6A3301A67A4BFDA9D3A528CAD34CAC6E7F8070" = true.
Proof.
  destruct addressesEqual_is_an_equivalence as (_ & _ & Htrans & Hlow & _).
  apply (Htrans _ (toLowerCase dao_address)); [apply Hlow; reflexivity | reflexivity].
Defined.

(** X3. The install task fails in exactly three ways, tried in this
    order: the APM client cannot be built; the DAO argument holds no
    address and the ENS resolver throws; web3 refuses to construct the
    kernel contract on the address in use, which is the argument itself
    when it holds an address and the resolver's answer otherwise. The
    error is that of the first of them to fail, and when none fails the
    steps are built on the address in use. *)
Theorem install_task_failures_in_order env a :
  let in_use address :=
    (contains_address (Install.dao a) /\ address = Install.dao a) \/
    (~ contains_address (Install.dao a) /\
     Install.resolveEnsDomain env (Install.dao a) = Returned address) in
  (forall e,
      Install.task env a = Thrown e <->
      Install.APM env = Thrown e \/
      (exists u, Install.APM env = Returned u) /\
      ((~ contains_address (Install.dao a) /\
        Install.resolveEnsDomain env (Install.dao a) = Thrown e) \/
       exists address, in_use address /\ Install.Contract env address = Thrown e)) /\
  (forall steps,
      Install.task env a = Returned steps <->
      (exists u, Install.APM env = Returned u) /\
      exists address u,
        in_use address /\ Install.Contract env address = Returned u /\
        steps = Install.tasks env address
                  (Install.defaultAPMName env (Install.apmRepo a)) a).
Proof.
  intros in_use. subst in_use. cbv beta.
  unfold Install.task, Install.resolve_dao.
  destruct (Install.APM env) as [u | e0].
  - destruct (address_re_test (Install.dao a)) eqn:E.
    + apply WordFacts.address_re_test_spec in E.
      destruct (Install.Contract env (Install.dao a)) as [u' | e1] eqn:Hc; split.
      * intros e. split; [discriminate |].
        intros [H | [_ [[N _] | (d & [[_ ->] | [N _]] & H)]]];
          try discriminate H; try contradiction.
        rewrite Hc in H. discriminate H.
      * intros steps. split.
        -- intros H. injection H as <-. split; [now exists u |].
           exists (Install.dao a), u'. split; [left; now split | now split].
        -- intros [_ (d & u2 & [[_ ->] | [N _]] & _ & ->)]; [reflexivity | contradiction].
      * intros e. split.
        -- intros H. injection H as <-. right. split; [now exists u |].
           right. exists (Install.dao a). split; [left; now split | exact Hc].
        -- intros [H | [_ [[N _] | (d & [[_ ->] | [N _]] & H)]]];
             try discriminate H; try contradiction.
           rewrite Hc in H. now injection H as ->.
      * intros steps. split; [discriminate |].
        intros [_ (d & u2 & [[_ ->] | [N _]] & H & _)]; [| contradiction].
        rewrite Hc in H. discriminate H.
    + assert (~ contains_address (Install.dao a)) as N.
      { intros H. apply WordFacts.address_re_test_spec in H. congruence. }
      destruct (Install.resolveEnsDomain env (Install.dao a)) as [d | e1] eqn:Hens.
      * destruct (Install.Contract env d) as [u' | e2] eqn:Hc; split.
        -- intros e. split; [discriminate |].
           intros [H | [_ [[_ H] | (d' & [[C _] | [_ Hd]] & H)]]];
             try discriminate H; try contradiction.
           injection Hd as <-. rewrite Hc in H. discriminate H.
        -- intros steps. split.
           ++ intros H. injection H as <-. split; [now exists u |].
              exists d, u'. split; [right; now split | now split].
           ++ intros [_ (d' & u2 & [[C _] | [_ Hd]] & _ & ->)]; [contradiction |].
              now injection Hd as <-.
        -- intros e. split.
           ++ intros H. injection H as <-. right. split; [now exists u |].
              right. exists d. split; [right; now split | exact Hc].
           ++ intros [H | [_ [[_ H] | (d' & [[C _] | [_ Hd]] & H)]]];
                try discriminate H; try contradiction.
              injection Hd as <-. rewrite Hc in H. now injection H as ->.
        -- intros steps. split; [discriminate |].
           intros [_ (d' & u2 & [[C _] | [_ Hd]] & H & _)]; [contradiction |].
           injection Hd as <-. rewrite Hc in H. discriminate H.
      * split.
        -- intros e. split.
           ++ intros H. injection H as <-. right. split; [now exists u |].
              left. now split.
           ++ intros [H | [_ [[_ H] | (d' & [[C _] | [_ Hd]] & _)]]];
                try discriminate H; try contradiction; try discriminate Hd.
              now injection H as ->.
        -- intros steps. split; [discriminate |].
           intros [_ (d' & u2 & [[C _] | [_ Hd]] & _)]; [contradiction | discriminate Hd].
  - split.
    + intros e. split.
      * intros H. injection H as <-. now left.
      * intros [H | [[u H] _]]; [now injection H as -> | discriminate H].
    + intros steps. split; [discriminate | intros [[u H] _]; discriminate H].
Qed.

(** X4. On a chain other than 1 and 4 the factory address is left as
    supplied, absent included; on chains 1 and 4 the address chosen is
    never empty; and choosing twice changes nothing. *)
Theorem default_factory_elsewhere_and_twice chainId supplied :
  (chainId <> 1%Z -> chainId <> 4%Z ->
   TokenNew.default_factory chainId supplied = supplied) /\
  (chainId = 1%Z \/ chainId = 4%Z ->
   exists address,
     TokenNew.default_factory chainId supplied = Some address /\ address <> "") /\
  TokenNew.default_factory chainId (TokenNew.default_factory chainId supplied) =
  TokenNew.default_factory chainId supplied.
Proof.
  unfold TokenNew.default_factory, or_else.
  destruct (Z.eqb_spec chainId 1) as [-> | N1]; simpl.
  - destruct supplied as [[| c s] |]; simpl;
      (split; [intros N; now elim N | split; [intros _; eexists; split; [reflexivity | discriminate] | reflexivity]]).
  - destruct (Z.eqb_spec chainId 4) as [-> | N4]; simpl.
    + destruct supplied as [[| c s] |]; simpl;
        (split; [intros _ N; now elim N | split; [intros _; eexists; split; [reflexivity | discriminate] | reflexivity]]).
    + split; [reflexivity | split; [intros [H | H]; contradiction | reflexivity]].
Qed.

Lemma default_factory_elsewhere_witness :
  TokenNew.default_factory 5 None = None.
Proof.
  apply (proj1 (default_factory_elsewhere_and_twice 5 None)); discriminate.
Defined.

Section InstallStepRuns.
Variable env : Install.Env.
Variable dao : string.

Lemma getRepoTask_run apmRepo version ctx :
  Install.getRepoTask_task env apmRepo version (start ctx) =
  match Install.getRepo env apmRepo version with
  | Returned r => (Returned tt, start (Install.set_repo r ctx))
  | Thrown e => (Thrown e, start ctx)
  end.
Proof.
  unfold Install.getRepoTask_task. unfold_task.
  destruct (Install.getRepo env apmRepo version); reflexivity.
Qed.

Lemma checking_installed_version_requests apmRepo ctx o st :
  Install.checking_installed_version env dao apmRepo (start ctx) = (o, st) ->
  ts_effects st = [].
Proof.
  unfold Install.checking_installed_version. unfold_task.
  destruct (Install.APP_BASES_NAMESPACE env dao) as [ns | e];
    [| intros H; inversion H; reflexivity].
  destruct (Install.repo ctx) as [r |]; [| intros H; inversion H; reflexivity].
  destruct (Install.getApp env dao ns _) as [currentBase | e];
    [| intros H; inversion H; reflexivity].
  destruct (currentBase =? Install.ZERO_ADDRESS env);
    [intros H; inversion H; reflexivity |].
  destruct (Install.addressesEqual currentBase _); simpl;
    intros H; inversion H; reflexivity.
Qed.

Lemma deploying_app_instance_run a ctx :
  Install.deploying_app_instance env dao a (start ctx) =
  match Install.repo ctx with
  | None => (Thrown (new_TypeError "Cannot read property 'abi' of undefined"), start ctx)
  | Some r =>
      match Install.encodeInitPayload env (Install.abi r) (Install.appInit a)
                                      (Install.appInitArgs a) with
      | Thrown e => (Thrown e, start ctx)
      | Returned initPayload =>
          let ctx1 :=
            if initPayload =? "0x" then Install.set_notInitialized true ctx else ctx in
          let request := Install.ExecTask dao (newAppInstance_path dao r initPayload) in
          match Install.execTask env dao (newAppInstance_path dao r initPayload) with
          | Returned rc =>
              (Returned tt, mkTaskState (Install.set_receipt rc ctx1) None None [request])
          | Thrown e => (Thrown e, mkTaskState ctx1 None None [request])
          end
      end
  end.
Proof.
  unfold Install.deploying_app_instance, Install.execHandler_task, newAppInstance_path.
  unfold_task.
  destruct (Install.repo ctx) as [r |]; [| reflexivity].
  destruct (Install.encodeInitPayload env _ _ _) as [initPayload | e]; [| reflexivity].
  destruct (initPayload =? "0x"); simpl;
    destruct (Install.execTask env dao _); reflexivity.
Qed.

Lemma fetching_deployed_app_run ctx :
  Install.fetching_deployed_app env dao (start ctx) =
  match find Install.is_NewAppProxy (Install.kernelABI env) with
  | None =>
      (Thrown (new_Error "Kernel ABI in aragon.js doesnt contain NewAppProxy log"),
       start ctx)
  | Some logABI =>
      match Install.receipt ctx with
      | None =>
          (Thrown (new_TypeError "Cannot read property 'logs' of undefined"), start ctx)
      | Some rc =>
          match find (Install.is_deploy_log dao
                        (Install.sha3 env (Install.logSignature logABI)))
                     (Install.logs rc) with
          | None =>
              (Returned tt,
               mkTaskState ctx (Some "App wasn't deployed in transaction.") None [])
          | Some deployLog =>
              (Returned tt,
               start (Install.set_appAddress
                        (Install.decodeLog env (Install.abi_inputs logABI)
                                           (Install.data deployLog) "proxy") ctx))
          end
      end
  end.
Proof.
  unfold Install.fetching_deployed_app.
  destruct (find Install.is_NewAppProxy _) as [logABI |]; [| reflexivity].
  unfold_task. cbn.
  destruct (Install.receipt ctx) as [rc |]; [| reflexivity].
  destruct (find _ (Install.logs rc)); reflexivity.
Qed.

(** What [Promise.all] over the create-permission calls settles to. *)
Lemma promise_all_create_permission_outcome permissions :
  forall st : TaskState Install.Ctx Install.Effect,
    match fst (Install.promise_all (map (Install.create_permission env dao) permissions) st)
    with
    | Returned receipts =>
        map (fun params =>
               Install.execTask env dao
                 (Install.getACLTransactionPath "createPermission" params))
            permissions =
        map Returned receipts
    | Thrown e =>
        exists params,
          In params permissions /\
          Install.execTask env dao
            (Install.getACLTransactionPath "createPermission" params) = Thrown e
    end.
Proof.
  induction permissions as [| p ps IH]; intros st.
  - reflexivity.
  - simpl.
    destruct (Install.execTask env dao (Install.getACLTransactionPath "createPermission" p))
      as [rc | e] eqn:Ep.
    + match goal with
      | |- context [Install.promise_all ?l ?s] =>
          specialize (IH s); destruct (Install.promise_all l s) as [[r | e'] st2]
      end; simpl in *.
      * now rewrite IH.
      * destruct IH as (q & Hq & Eq). exists q. auto.
    + simpl. exists p. auto.
Qed.

Lemma all_returned {A B : Type} (f : A -> Outcome B) (l : list A) (rs : list B) :
  map f l = map Returned rs -> forall x, In x l -> exists r, f x = Returned r.
Proof.
  revert rs. induction l as [| a l IH]; intros [| r rs] H x Hx; try discriminate H.
  - destruct Hx.
  - simpl in H. injection H as Ha Hl. destruct Hx as [<- | Hx].
    + now exists r.
    + exact (IH rs Hl x Hx).
Qed.

(** How [set_permissions] ends once the repo has roles. *)
Lemma set_permissions_outcome ctx r role rs o st :
  Install.repo ctx = Some r ->
  Install.roles r = Some (role :: rs) ->
  Install.set_permissions env dao (start ctx) = (o, st) ->
  let settled :=
    match o with
    | Returned _ =>
        forall x, In x (role :: rs) ->
                  exists rc,
                    Install.execTask env dao (createPermission_path env ctx x) = Returned rc
    | Thrown e =>
        exists x, In x (role :: rs) /\
                  Install.execTask env dao (createPermission_path env ctx x) = Thrown e
    end in
  match Install.accounts ctx with
  | Some _ => settled
  | None =>
      match Install.getAccounts env with
      | Returned _ => settled
      | Thrown e => o = Thrown e
      end
  end.
Proof.
  intros Hr Hroles. cbv zeta.
  unfold Install.set_permissions, bind at 1, get_ctx. simpl.
  rewrite Hr, Hroles.
  remember (map (Install.create_permission env dao)
                (map (Install.permission_params env ctx) (role :: rs)))
    as calls eqn:Hcalls.
  unfold bind.
  assert (forall st : TaskState Install.Ctx Install.Effect,
             match fst (Install.promise_all calls st) with
             | Returned _ =>
                 forall x, In x (role :: rs) ->
                           exists rc,
                             Install.execTask env dao (createPermission_path env ctx x)
                             = Returned rc
             | Thrown e =>
                 exists x, In x (role :: rs) /\
                           Install.execTask env dao (createPermission_path env ctx x)
                           = Thrown e
             end) as P.
  { intros st0.
    pose proof (promise_all_create_permission_outcome
                  (map (Install.permission_params env ctx) (role :: rs)) st0) as P.
    rewrite <- Hcalls in P.
    destruct (fst (Install.promise_all calls st0)) as [rcs | e].
    - rewrite map_map in P. intros x Hx.
      exact (all_returned _ _ _ P x Hx).
    - destruct P as (params & Hin & Hp). apply in_map_iff in Hin.
      destruct Hin as (x & <- & Hx). now exists x. }
  destruct (Install.accounts ctx) as [acc |].
  - unfold ret at 1. specialize (P (start ctx)).
    destruct (Install.promise_all calls (start ctx)) as [[x | e] st2]; simpl in P;
      intros H; inversion H; subst; exact P.
  - unfold emit at 1, await at 1. simpl.
    destruct (Install.getAccounts env) as [acc | e];
      [| intros H; inversion H; reflexivity].
    unfold modify_ctx at 1. simpl.
    match goal with
    | |- context [Install.promise_all calls ?s] =>
        specialize (P s); destruct (Install.promise_all calls s) as [[x | e] st2]
    end; simpl in P; intros H; inversion H; subst; exact P.
Qed.

End InstallStepRuns.

(** X5. The Deploying-app-instance step, on a context with a repo: when
    the init payload cannot be encoded it throws that error having asked
    for nothing; otherwise it asks the executor for exactly one
    transaction, [newAppInstance] on the DAO with the repo's app id, its
    contract address, the payload and [false]; [ctx.notInitialized] is
    raised exactly for the payload ["0x"], also when the transaction
    fails; the receipt is stored only when the executor returns one, and
    an executor error is the step's error. *)
Theorem deploying_app_instance_outcomes env dao a ctx r :
  Install.repo ctx = Some r ->
  let encoded :=
    Install.encodeInitPayload env (Install.abi r) (Install.appInit a)
                              (Install.appInitArgs a) in
  let out := Install.deploying_app_instance env dao a (start ctx) in
  (forall e, encoded = Thrown e -> out = (Thrown e, start ctx)) /\
  (forall initPayload,
      encoded = Returned initPayload ->
      let path := newAppInstance_path dao r initPayload in
      ts_effects (snd out) = [Install.ExecTask dao path] /\
      Install.notInitialized (ts_ctx (snd out)) =
        (initPayload =? "0x") || Install.notInitialized ctx /\
      fst out = match Install.execTask env dao path with
                | Returned _ => Returned tt
                | Thrown e => Thrown e
                end /\
      Install.receipt (ts_ctx (snd out)) =
        match Install.execTask env dao path with
        | Returned rc => Some rc
        | Thrown _ => Install.receipt ctx
        end /\
      Install.repo (ts_ctx (snd out)) = Install.repo ctx /\
      Install.appAddress (ts_ctx (snd out)) = Install.appAddress ctx /\
      Install.accounts (ts_ctx (snd out)) = Install.accounts ctx).
Proof.
  intros Hr encoded out. subst out encoded.
  rewrite deploying_app_instance_run, Hr. split.
  - intros e ->. reflexivity.
  - intros initPayload -> path. subst path. cbv zeta.
    destruct (initPayload =? "0x");
      destruct (Install.execTask env dao (newAppInstance_path dao r initPayload));
      simpl; repeat split; exact Hr.
Qed.

Lemma deploying_app_instance_outcomes_witness :
  Install.notInitialized
    (ts_ctx (snd (Install.deploying_app_instance
                    (install_env base_v2 (Some voting_roles) [deploy_log]) dao_address
                    (install_args None) (start (ctx_with_repo (Some voting_roles)))))) =
  false.
Proof.
  exact (proj1 (proj2 (proj2 (deploying_app_instance_outcomes
                                (install_env base_v2 (Some voting_roles) [deploy_log])
                                dao_address (install_args None)
                                (ctx_with_repo (Some voting_roles))
                                (voting_repo (Some voting_roles)) eq_refl)
                              "0x8129fc1c" eq_refl))).
Defined.

(** X6. The Fetching-deployed-app step throws in exactly two cases: the
    kernel ABI has no [NewAppProxy] event, which is checked first and
    reported as such, or the context has no receipt. It never asks for
    anything, and it leaves every property of the context but
    [appAddress] as it was. *)
Theorem fetching_deployed_app_throws_iff env dao ctx :
  let out := Install.fetching_deployed_app env dao (start ctx) in
  ((exists e, fst out = Thrown e) <->
   find Install.is_NewAppProxy (Install.kernelABI env) = None \/
   Install.receipt ctx = None) /\
  (find Install.is_NewAppProxy (Install.kernelABI env) = None ->
   out = (Thrown (new_Error "Kernel ABI in aragon.js doesnt contain NewAppProxy log"),
          start ctx)) /\
  ts_effects (snd out) = [] /\
  Install.repo (ts_ctx (snd out)) = Install.repo ctx /\
  Install.receipt (ts_ctx (snd out)) = Install.receipt ctx /\
  Install.notInitialized (ts_ctx (snd out)) = Install.notInitialized ctx /\
  Install.accounts (ts_ctx (snd out)) = Install.accounts ctx.
Proof.
  intros out. subst out. rewrite fetching_deployed_app_run.
  destruct (find Install.is_NewAppProxy (Install.kernelABI env)) as [logABI |].
  - destruct (Install.receipt ctx) as [rc |] eqn:Hrc.
    + destruct (find _ (Install.logs rc)); simpl; rewrite ?Hrc;
        (split; [split; [intros [e He]; discriminate He
                        | intros [H | H]; discriminate H] |]);
        (split; [discriminate |]); repeat split.
    + simpl. rewrite Hrc.
      split; [split; [intros _; now right | intros _; eexists; reflexivity] |].
      split; [discriminate |]. repeat split.
  - simpl.
    split; [split; [intros _; now left | intros _; eexists; reflexivity] |].
    repeat split.
Qed.

(** X7. The Set-permissions step, on a repo with roles, asks for the
    accounts only when the context has none, and stores them; accounts
    already in the context are kept. When the accounts request throws,
    that is the step's error and no transaction is asked for. With the
    accounts at hand the step returns exactly when every create-permission
    call returns, and when it throws, it throws the error of one of the
    calls that failed. It never marks itself skipped. *)
Theorem set_permissions_outcomes env dao ctx r rs :
  Install.repo ctx = Some r ->
  Install.roles r = Some rs ->
  rs <> [] ->
  let out := Install.set_permissions env dao (start ctx) in
  let call role := Install.execTask env dao (createPermission_path env ctx role) in
  (forall acc,
      Install.accounts ctx = Some acc ->
      ~ In Install.GetAccounts (ts_effects (snd out)) /\
      ts_ctx (snd out) = ctx) /\
  (Install.accounts ctx = None ->
   hd_error (ts_effects (snd out)) = Some Install.GetAccounts /\
   (forall acc, Install.getAccounts env = Returned acc ->
                ts_ctx (snd out) = Install.set_accounts acc ctx) /\
   (forall e, Install.getAccounts env = Thrown e ->
              out = (Thrown e, mkTaskState ctx None None [Install.GetAccounts]))) /\
  ((Install.accounts ctx <> None \/ exists acc, Install.getAccounts env = Returned acc) ->
   (fst out = Returned tt <-> forall role, In role rs -> exists rc, call role = Returned rc) /\
   (forall e, fst out = Thrown e -> exists role, In role rs /\ call role = Thrown e)) /\
  ts_skipped (snd out) = None.
Proof.
  intros Hr Hroles Hne out call. subst out call.
  destruct rs as [| role rs]; [contradiction |].
  pose proof (set_permissions_with_roles env dao ctx r role rs Hr Hroles) as Hsnd.
  cbv zeta in Hsnd.
  destruct (Install.set_permissions env dao (start ctx)) as [o st] eqn:E.
  pose proof (set_permissions_outcome env dao ctx r role rs o st Hr Hroles E) as Hfst.
  cbv zeta in Hfst. simpl fst. simpl snd. simpl in Hsnd.
  split; [| split; [| split]].
  - intros acc Hacc. rewrite Hacc in Hsnd. subst st. simpl. split; [| reflexivity].
    intros [H | H]; [discriminate H |].
    apply in_map_iff in H. destruct H as (x & H & _). discriminate H.
  - intros Hnone. rewrite Hnone in Hsnd, Hfst.
    destruct (Install.getAccounts env) as [acc | e]; subst st.
    + split; [reflexivity | split].
      * intros acc' H. injection H as ->. reflexivity.
      * intros e H. discriminate H.
    + split; [reflexivity | split].
      * intros acc H. discriminate H.
      * intros e' H. injection H as ->. rewrite Hfst. reflexivity.
  - intros Havail.
    assert (match o with
            | Returned _ =>
                forall x, In x (role :: rs) ->
                          exists rc,
                            Install.execTask env dao (createPermission_path env ctx x)
                            = Returned rc
            | Thrown e =>
                exists x, In x (role :: rs) /\
                          Install.execTask env dao (createPermission_path env ctx x)
                          = Thrown e
            end) as S.
    { destruct (Install.accounts ctx) as [acc |]; [exact Hfst |].
      destruct Havail as [N | [acc Hacc]]; [now elim N |].
      rewrite Hacc in Hfst. exact Hfst. }
    split; [split |].
    + intros ->. exact S.
    + intros Hall. destruct o as [[] | e]; [reflexivity |].
      destruct S as (x & Hx & Hthrown).
      destruct (Hall x Hx) as [rc Hrc]. rewrite Hrc in Hthrown. discriminate Hthrown.
    + intros e ->. exact S.
  - subst st. destruct (Install.accounts ctx); [reflexivity |].
    destruct (Install.getAccounts env); reflexivity.
Qed.

Lemma set_permissions_outcomes_witness :
  fst (Install.set_permissions (install_env base_v2 (Some voting_roles) [deploy_log])
         dao_address (start ctx_with_app)) = Returned tt <->
  forall role,
    In role voting_roles ->
    exists rc,
      Install.execTask (install_env base_v2 (Some voting_roles) [deploy_log]) dao_address
        (createPermission_path (install_env base_v2 (Some voting_roles) [deploy_log])
                               ctx_with_app role) = Returned rc.
Proof.
  refine (proj1 (proj1 (proj2 (proj2
            (set_permissions_outcomes
               (install_env base_v2 (Some voting_roles) [deploy_log]) dao_address
               ctx_with_app (voting_repo (Some voting_roles)) voting_roles
               eq_refl eq_refl _)))
            (or_intror (ex_intro _ [dao_address] eq_refl)))).
  discriminate.
Defined.

Section InstallEntries.
Variable env : Install.Env.
Variables dao apmRepo : string.
Variable a : Install.Args.

Lemma install_tasks_steps :
  Install.tasks env dao apmRepo a = [resolve_step env apmRepo a; check_step env dao apmRepo; deploy_step env dao a;
   decode_step env dao; permissions_step env dao a].
Proof. reflexivity. Qed.

(** The resolve step asks for nothing; it fails or stores the repo. *)
Lemma resolve_entry en :
  entry_of (resolve_step env apmRepo a) en ->
  en_effects en = [] /\
  ((exists e, en_status en = Failed e) \/
   exists r,
     Install.getRepo env apmRepo (Install.apmRepoVersion a) = Returned r /\
     en_after en = Install.set_repo r (en_before en)).
Proof.
  intros E. destruct (entry_of_always (resolve_step env apmRepo a) en eq_refl E) as (o & st & Hrun & Ha & He & Hs).
  simpl in Hrun. rewrite getRepoTask_run in Hrun.
  destruct (Install.getRepo env apmRepo (Install.apmRepoVersion a)) as [r | e];
    inversion Hrun; subst; rewrite He; split; try reflexivity.
  - right. exists r. split; [reflexivity | exact Ha].
  - left. now exists e.
Qed.

(** The version check asks for nothing and leaves the context alone. *)
Lemma check_entry en :
  entry_of (check_step env dao apmRepo) en -> en_effects en = [] /\ en_after en = en_before en.
Proof.
  intros E. destruct (entry_of_always (check_step env dao apmRepo) en eq_refl E) as (o & st & Hrun & Ha & He & Hs).
  simpl in Hrun. rewrite He, Ha. split.
  - exact (checking_installed_version_requests env dao apmRepo _ _ _ Hrun).
  - exact (checking_installed_version_keeps_ctx env dao apmRepo _ _ _ Hrun).
Qed.

(** The deploy step on a context with a repo. *)
Lemma deploy_entry en r :
  entry_of (deploy_step env dao a) en ->
  Install.repo (en_before en) = Some r ->
  (en_effects en = [] /\ exists e, en_status en = Failed e) \/
  exists initPayload,
    Install.encodeInitPayload env (Install.abi r) (Install.appInit a)
                              (Install.appInitArgs a) = Returned initPayload /\
    en_effects en = [Install.ExecTask dao (newAppInstance_path dao r initPayload)] /\
    ((exists e, en_status en = Failed e) \/
     exists rc,
       Install.execTask env dao (newAppInstance_path dao r initPayload) = Returned rc /\
       en_after en =
       Install.set_receipt rc
         (if initPayload =? "0x"
          then Install.set_notInitialized true (en_before en)
          else en_before en)).
Proof.
  intros E Hr. destruct (entry_of_always (deploy_step env dao a) en eq_refl E) as (o & st & Hrun & Ha & He & Hs).
  simpl in Hrun. rewrite deploying_app_instance_run, Hr in Hrun.
  destruct (Install.encodeInitPayload env _ _ _) as [initPayload | e].
  - right. exists initPayload. split; [reflexivity |].
    cbv zeta in Hrun.
    destruct (Install.execTask env dao (newAppInstance_path dao r initPayload)) as [rc | e];
      inversion Hrun; subst; rewrite He; (split; [reflexivity |]).
    + right. exists rc. split; [reflexivity | exact Ha].
    + left. now exists e.
  - left. inversion Hrun; subst. rewrite He. split; [reflexivity | now exists e].
Qed.

(** The decode step on a context with a receipt. *)
Lemma decode_entry en rc :
  entry_of (decode_step env dao) en ->
  Install.receipt (en_before en) = Some rc ->
  en_effects en = [] /\
  ((exists e, en_status en = Failed e) \/
   en_after en = en_before en \/
   exists logABI deployLog,
     find Install.is_NewAppProxy (Install.kernelABI env) = Some logABI /\
     find (Install.is_deploy_log dao (Install.sha3 env (Install.logSignature logABI)))
          (Install.logs rc) = Some deployLog /\
     en_after en =
     Install.set_appAddress
       (Install.decodeLog env (Install.abi_inputs logABI) (Install.data deployLog) "proxy")
       (en_before en)).
Proof.
  intros E Hrc. destruct (entry_of_always (decode_step env dao) en eq_refl E) as (o & st & Hrun & Ha & He & Hs).
  simpl in Hrun. rewrite fetching_deployed_app_run, Hrc in Hrun.
  destruct (find Install.is_NewAppProxy (Install.kernelABI env)) as [logABI |].
  - destruct (find _ (Install.logs rc)) as [deployLog |] eqn:Hfind;
      inversion Hrun; subst; rewrite He; (split; [reflexivity |]).
    + right. right. exists logABI, deployLog.
      split; [reflexivity | split; [assumption | exact Ha]].
    + right. left. exact Ha.
  - inversion Hrun; subst. rewrite He. split; [reflexivity |]. left. eexists. exact Hs.
Qed.

Lemma set_permissions_transactions ctx :
  Forall (is_createPermission dao)
    (Install.transactions (ts_effects (snd (Install.set_permissions env dao (start ctx))))).
Proof.
  destruct (Install.repo ctx) as [r |] eqn:Hr.
  - destruct (Install.roles r) as [[| role rs] |] eqn:Hroles.
    + unfold Install.set_permissions, bind at 1, get_ctx. simpl. rewrite Hr, Hroles.
      constructor.
    + rewrite (set_permissions_with_roles env dao ctx r role rs Hr Hroles).
      assert (forall l : list Install.Role,
                 Forall (is_createPermission dao)
                   (Install.transactions
                      (map (fun x =>
                              Install.ExecTask dao
                                (Install.getACLTransactionPath "createPermission"
                                   (Install.permission_params env ctx x))) l))) as T.
      { induction l as [| x l IH]; [constructor |].
        simpl. constructor; [| exact IH]. split; [reflexivity | eexists; reflexivity]. }
      destruct (Install.accounts ctx); [exact (T (role :: rs)) |].
      destruct (Install.getAccounts env); [exact (T (role :: rs)) | constructor].
    + unfold Install.set_permissions, bind at 1, get_ctx. simpl. rewrite Hr, Hroles.
      constructor.
  - unfold Install.set_permissions, bind at 1, get_ctx. simpl. rewrite Hr. constructor.
Qed.

(** The permissions step: passed over, or run on request, asking only
    for create-permission transactions and touching only [accounts]. *)
Lemma permissions_entry en :
  entry_of (permissions_step env dao a) en ->
  Install.appAddress (en_after en) = Install.appAddress (en_before en) /\
  Install.notInitialized (en_after en) = Install.notInitialized (en_before en) /\
  Forall (is_createPermission dao) (Install.transactions (en_effects en)) /\
  (en_effects en <> [] -> Install.setPermissions a = Some "open").
Proof.
  intros [_ [(_ & _ & Ha & He) | (Hen & o & st & Hrun & Ha & He & _)]].
  - rewrite Ha, He. repeat split. constructor. intros N. now elim N.
  - simpl in Hrun.
    destruct (set_permissions_state env dao _ _ _ Hrun) as [_ Hctx].
    pose proof (set_permissions_transactions (en_before en)) as T.
    rewrite Hrun in T. simpl in T. rewrite Ha, He.
    apply set_permissions_enabled_spec in Hen. destruct Hen as [Hopen _].
    destruct Hctx as [-> | [acc ->]]; repeat split; auto.
Qed.

(** Every run of the install pipeline: either it was rejected before
    anything was asked for, or the repo was resolved, the payload encoded
    and [newAppInstance] asked for first, followed only by create
    permission transactions. *)
Lemma install_run_analysis ctx0 :
  let run := run_steps (Install.tasks env dao apmRepo a) ctx0 in
  (requests run = [] /\ exists e, run_rejected run = Some e) \/
  exists r initPayload,
    Install.getRepo env apmRepo (Install.apmRepoVersion a) = Returned r /\
    Install.encodeInitPayload env (Install.abi r) (Install.appInit a)
                              (Install.appInitArgs a) = Returned initPayload /\
    exists later,
      requests run = Install.ExecTask dao (newAppInstance_path dao r initPayload) :: later /\
      Forall (is_createPermission dao) (Install.transactions later) /\
      (later <> [] -> Install.setPermissions a = Some "open") /\
      (run_rejected run = None ->
       exists rc,
         Install.execTask env dao (newAppInstance_path dao r initPayload) = Returned rc /\
         Install.notInitialized (run_ctx run) =
           (initPayload =? "0x") || Install.notInitialized ctx0 /\
         (Install.appAddress (run_ctx run) = Install.appAddress ctx0 \/
          exists logABI deployLog,
            find Install.is_NewAppProxy (Install.kernelABI env) = Some logABI /\
            find (Install.is_deploy_log dao (Install.sha3 env (Install.logSignature logABI)))
                 (Install.logs rc) = Some deployLog /\
            Install.appAddress (run_ctx run) =
            Install.decodeLog env (Install.abi_inputs logABI)
                              (Install.data deployLog) "proxy")).
Proof.
  intros run. subst run. rewrite install_tasks_steps.
  (* resolve *)
  destruct (run_steps_head (resolve_step env apmRepo a) [(check_step env dao apmRepo); (deploy_step env dao a); (decode_step env dao); (permissions_step env dao a)] ctx0)
    as (en0 & E0 & B0 & [(e & Hs & ->) | (Hnf0 & ->)]);
    destruct (resolve_entry en0 E0) as [He0 H0].
  { left. unfold requests. simpl. rewrite He0. split; [reflexivity | now exists e]. }
  destruct H0 as [[e Hs] | (r & Hget & Ha0)]; [exfalso; exact (Hnf0 e Hs) |].
  rewrite B0 in Ha0.
  (* check *)
  destruct (run_steps_head (check_step env dao apmRepo) [(deploy_step env dao a); (decode_step env dao); (permissions_step env dao a)] (en_after en0))
    as (en1 & E1 & B1 & [(e & Hs & ->) | (Hnf1 & ->)]);
    destruct (check_entry en1 E1) as [He1 Ha1].
  { left. unfold requests. simpl. rewrite He0, He1. split; [reflexivity | now exists e]. }
  rewrite B1, Ha0 in Ha1.
  (* deploy *)
  destruct (run_steps_head (deploy_step env dao a) [(decode_step env dao); (permissions_step env dao a)] (en_after en1))
    as (en2 & E2 & B2 & Hrun2).
  assert (Install.repo (en_before en2) = Some r) as Hr2 by (rewrite B2, Ha1; reflexivity).
  destruct (deploy_entry en2 r E2 Hr2) as [[He2 [e Hs2]] | (p & Henc & He2 & H2)].
  { left. destruct Hrun2 as [(e' & Hs & ->) | (Hnf2 & _)]; [| exfalso; exact (Hnf2 e Hs2)].
    unfold requests. simpl. rewrite He0, He1, He2. split; [reflexivity | now exists e']. }
  right. exists r, p. split; [exact Hget | split; [exact Henc |]].
  destruct Hrun2 as [(e & Hs & ->) | (Hnf2 & ->)].
  { exists []. unfold requests. simpl. rewrite He0, He1, He2.
    split; [reflexivity | split; [constructor | split; [intros N; now elim N | discriminate]]]. }
  destruct H2 as [[e Hs2] | (rc & Hexec & Ha2)]; [exfalso; exact (Hnf2 e Hs2) |].
  rewrite B2, Ha1 in Ha2.
  assert (Install.receipt (en_after en2) = Some rc) as Hrc2.
  { rewrite Ha2. reflexivity. }
  assert (Install.notInitialized (en_after en2) =
          (p =? "0x") || Install.notInitialized ctx0) as Hni2.
  { rewrite Ha2. destruct (p =? "0x"); reflexivity. }
  assert (Install.appAddress (en_after en2) = Install.appAddress ctx0) as Hap2.
  { rewrite Ha2. destruct (p =? "0x"); reflexivity. }
  (* decode *)
  destruct (run_steps_head (decode_step env dao) [(permissions_step env dao a)] (en_after en2))
    as (en3 & E3 & B3 & Hrun3).
  assert (Install.receipt (en_before en3) = Some rc) as Hrc3 by (now rewrite B3).
  destruct (decode_entry en3 rc E3 Hrc3) as [He3 H3].
  destruct Hrun3 as [(e & Hs & ->) | (Hnf3 & ->)].
  { exists []. unfold requests. simpl. rewrite He0, He1, He2, He3.
    split; [reflexivity | split; [constructor | split; [intros N; now elim N | discriminate]]]. }
  (* permissions *)
  destruct (run_steps_head (permissions_step env dao a) [] (en_after en3))
    as (en4 & E4 & B4 & Hrun4).
  destruct (permissions_entry en4 E4) as (Hap4 & Hni4 & Htx4 & Hopen4).
  exists (en_effects en4).
  assert (requests
            (logged en0 (logged en1 (logged en2 (logged en3
               (run_steps [(permissions_step env dao a)] (en_after en3)))))) =
          Install.ExecTask dao (newAppInstance_path dao r p) :: en_effects en4) as Hreq.
  { destruct Hrun4 as [(e & _ & ->) | (_ & ->)];
      rewrite !requests_logged, He0, He1, He2, He3; unfold requests; simpl;
      now rewrite app_nil_r. }
  split; [exact Hreq | split; [exact Htx4 | split; [exact Hopen4 |]]].
  destruct Hrun4 as [(e & _ & ->) | (_ & ->)]; [discriminate |].
  intros _. exists rc. split; [exact Hexec |].
  simpl run_ctx. rewrite Hni4, Hap4, B4.
  destruct H3 as [[e Hs3] | [Ha3 | (logABI & deployLog & Habi & Hfind & Ha3)]].
  - exfalso. exact (Hnf3 e Hs3).
  - rewrite Ha3, B3. split; [exact Hni2 | left; exact Hap2].
  - rewrite Ha3, B3. split; [exact Hni2 |].
    right. exists logABI, deployLog. repeat split; assumption.
Qed.

End InstallEntries.

(** X8. When the repo resolves and the kernel reports a registered base
    that is neither the zero address nor, ignoring case, the repo's
    contract address, the install run is rejected with the
    version-mismatch error after two steps: after the repo was fetched
    and the kernel read, and before anything was asked of the transaction
    executor or of the accounts, with only the repo stored in the
    context. *)
Theorem version_mismatch_aborts_before_any_request
    env dao apmRepo a ctx0 r ns currentBase :
  Install.getRepo env apmRepo (Install.apmRepoVersion a) = Returned r ->
  Install.APP_BASES_NAMESPACE env dao = Returned ns ->
  Install.getApp env dao ns (Install.appId r) = Returned currentBase ->
  currentBase <> Install.ZERO_ADDRESS env ->
  Install.addressesEqual currentBase (Install.contractAddress r) = false ->
  let run := run_steps (Install.tasks env dao apmRepo a) ctx0 in
  run_rejected run =
    Some (new_Error (Install.version_mismatch_message apmRepo currentBase)) /\
  requests run = [] /\
  map en_title (run_log run) =
    [("Fetching " ++ Install.chalk_bold env apmRepo ++ "@"
      ++ template (Install.apmRepoVersion a))%string;
     "Checking installed version"] /\
  run_ctx run = Install.set_repo r ctx0.
Proof.
  intros Hget Hns Hbase Hnz Hneq run. subst run.
  rewrite install_tasks_steps.
  assert (Install.getRepoTask_task env apmRepo (Install.apmRepoVersion a) (start ctx0) =
          (Returned tt, start (Install.set_repo r ctx0))) as R0.
  { rewrite getRepoTask_run, Hget. reflexivity. }
  rewrite (run_steps_returned (resolve_step env apmRepo a) _ ctx0 tt _ eq_refl R0).
  assert (Install.checking_installed_version env dao apmRepo
            (start (Install.set_repo r ctx0)) =
          (Thrown (new_Error (Install.version_mismatch_message apmRepo currentBase)),
           start (Install.set_repo r ctx0))) as R1.
  { rewrite (checking_installed_version_run env dao apmRepo (Install.set_repo r ctx0)
               r ns currentBase eq_refl Hns Hbase).
    apply String.eqb_neq in Hnz. rewrite Hnz, Hneq. reflexivity. }
  simpl ts_ctx.
  rewrite (run_steps_thrown (check_step env dao apmRepo) _ _ _ _ eq_refl R1).
  repeat split.
Qed.

Lemma version_mismatch_aborts_witness :
  requests
    (run_steps (Install.tasks (install_env base_v1 (Some voting_roles) [deploy_log])
                              dao_address "voting.aragonpm.eth" (install_args (Some "open")))
               Install.empty_ctx) = [].
Proof.
  refine (proj1 (proj2 (version_mismatch_aborts_before_any_request
                          (install_env base_v1 (Some voting_roles) [deploy_log])
                          dao_address "voting.aragonpm.eth" (install_args (Some "open"))
                          Install.empty_ctx (voting_repo (Some voting_roles))
                          "0xf1f3eb40" base_v1 eq_refl eq_refl eq_refl _ eq_refl))).
  discriminate.
Defined.

(** X9. Whatever the environment answers, the transactions an install
    run asks for are none at all, or a single [newAppInstance] for the
    resolved repo and the encoded payload followed only by
    create-permission transactions; and permissions are asked for only
    when the set-permissions option is "open". *)
Theorem install_run_asks_for_newAppInstance_first env dao apmRepo a ctx0 :
  let asked :=
    Install.transactions (requests (run_steps (Install.tasks env dao apmRepo a) ctx0)) in
  asked = [] \/
  exists r initPayload permissions,
    Install.getRepo env apmRepo (Install.apmRepoVersion a) = Returned r /\
    Install.encodeInitPayload env (Install.abi r) (Install.appInit a)
                              (Install.appInitArgs a) = Returned initPayload /\
    asked = (dao, newAppInstance_path dao r initPayload) :: permissions /\
    Forall (is_createPermission dao) permissions /\
    (permissions <> [] -> Install.setPermissions a = Some "open").
Proof.
  intros asked. subst asked.
  destruct (install_run_analysis env dao apmRepo a ctx0)
    as [[-> _] | (r & p & Hget & Henc & later & -> & Htx & Hopen & _)].
  - left. reflexivity.
  - right. exists r, p, (Install.transactions later).
    split; [exact Hget | split; [exact Henc | split; [reflexivity | split; [exact Htx |]]]].
    intros N. apply Hopen. intros ->. now elim N.
Qed.

(** X10. When the install handler reaches [process.exit()], the repo was
    resolved, the payload encoded and the [newAppInstance] transaction
    returned a receipt; it has reported the executed path first, then
    either the proxy, not empty, decoded from the first [NewAppProxy] log
    of the DAO in that receipt as the place the app is installed at, or
    the warning that permissions are still to be assigned; and last, the
    initialization warning exactly when the encoded payload was ["0x"]. *)
Theorem install_handler_reports env transactionPath a reports :
  install_handler (Returned env) transactionPath a = Exited reports ->
  exists dao r initPayload rc description second,
    Install.resolve_dao env (Install.dao a) = Returned dao /\
    Install.getRepo env (Install.defaultAPMName env (Install.apmRepo a))
                    (Install.apmRepoVersion a) = Returned r /\
    Install.encodeInitPayload env (Install.abi r) (Install.appInit a)
                              (Install.appInitArgs a) = Returned initPayload /\
    Install.execTask env dao (newAppInstance_path dao r initPayload) = Returned rc /\
    (exists others, transactionPath = Some (description :: others)) /\
    reports =
      [Info ("Successfully executed: " ++ quote ++ description ++ quote)%string; second]
      ++ (if initPayload =? "0x" then [Warning not_initialized_warning] else []) /\
    (second = Warning permissions_warning \/
     exists logABI deployLog proxy,
       find Install.is_NewAppProxy (Install.kernelABI env) = Some logABI /\
       find (Install.is_deploy_log dao (Install.sha3 env (Install.logSignature logABI)))
            (Install.logs rc) = Some deployLog /\
       Install.decodeLog env (Install.abi_inputs logABI) (Install.data deployLog) "proxy"
       = Some proxy /\
       proxy <> "" /\
       second = Success ("Installed " ++ Install.apmRepo a ++ " at: "
                         ++ Install.chalk_bold env proxy)%string).
Proof.
  unfold install_handler, Install.task.
  destruct (Install.APM env) as [u | e]; [| discriminate].
  destruct (Install.resolve_dao env (Install.dao a)) as [dao | e]; [| discriminate].
  destruct (Install.Contract env dao) as [u' | e]; [| discriminate].
  set (apmRepo := Install.defaultAPMName env (Install.apmRepo a)).
  destruct (install_run_analysis env dao apmRepo a Install.empty_ctx)
    as [[_ [e He]] | (r & p & Hget & Henc & later & _ & _ & _ & Hfinal)].
  { cbv zeta. rewrite He. discriminate. }
  cbv zeta.
  destruct (run_rejected (run_steps (Install.tasks env dao apmRepo a) Install.empty_ctx))
    as [e |]; [discriminate |].
  destruct (Hfinal eq_refl) as (rc & Hexec & Hni & Hap).
  set (ctx := run_ctx (run_steps (Install.tasks env dao apmRepo a) Install.empty_ctx)) in *.
  clearbody ctx. simpl in Hni. rewrite orb_false_r in Hni. simpl in Hap.
  unfold install_reports.
  destruct transactionPath as [[| description others] |]; try discriminate.
  rewrite Hni.
  intros H. injection H as <-.
  exists dao, r, p, rc, description.
  destruct Hap as [Hap | (logABI & deployLog & Habi & Hfind & Hap)].
  - rewrite Hap. simpl. exists (Warning permissions_warning).
    repeat split; try assumption; try reflexivity.
    + now exists others.
    + now left.
  - rewrite Hap.
    destruct (Install.decodeLog env (Install.abi_inputs logABI) (Install.data deployLog)
                                "proxy") as [proxy |] eqn:Hdec.
    + simpl of_opt. simpl truthy.
      destruct (proxy =? "") eqn:Hempty; simpl negb; cbv iota.
      * exists (Warning permissions_warning).
        repeat split; try assumption; try reflexivity; [now exists others | now left].
      * exists (Success ("Installed " ++ Install.apmRepo a ++ " at: "
                         ++ Install.chalk_bold env proxy)%string).
        repeat split; try assumption; try reflexivity; [now exists others |].
        right. exists logABI, deployLog, proxy. apply String.eqb_neq in Hempty.
        repeat split; assumption.
    + simpl. exists (Warning permissions_warning).
      repeat split; try assumption; try reflexivity; [now exists others | now left].
Qed.

Lemma install_handler_reports_witness :
  exists reports,
    install_handler (Returned (install_env base_v2 (Some voting_roles) [deploy_log]))
                    (Some ["Create a new install of voting.aragonpm.eth"])
                    (install_args None) = Exited reports /\
    length reports = 2.
Proof.
  eexists. split; [reflexivity |].
  destruct (install_handler_reports
              (install_env base_v2 (Some voting_roles) [deploy_log])
              (Some ["Create a new install of voting.aragonpm.eth"])
              (install_args None) _ eq_refl) as (_ & _ & _ & _ & _ & _ & _).
  reflexivity.
Defined.

Section TokenStepRuns.
Variable env : TokenNew.Env.

Lemma deploy_factory_run from ctx :
  TokenNew.deploy_factory env from (start ctx) =
  match TokenNew.estimateGas env TokenNew.factory_tx with
  | Thrown e =>
      (Thrown e, mkTaskState ctx None None [TokenNew.EstimateGas TokenNew.factory_tx])
  | Returned estimatedGas =>
      match TokenNew.getRecommendedGasLimit env estimatedGas with
      | Thrown e =>
          (Thrown e, mkTaskState ctx None None [TokenNew.EstimateGas TokenNew.factory_tx])
      | Returned gas =>
          let opts := TokenNew.mkSendOptions from gas in
          deployed TokenNew.factory_tx opts
                   TokenNew.set_factoryAddress TokenNew.set_factoryTxHash
                   (TokenNew.send env TokenNew.factory_tx opts) ctx
      end
  end.
Proof.
  unfold TokenNew.deploy_factory. fold TokenNew.factory_tx. unfold_task.
  destruct (TokenNew.estimateGas env TokenNew.factory_tx) as [g |]; [| reflexivity].
  destruct (TokenNew.getRecommendedGasLimit env g) as [gas |]; [| reflexivity].
  unfold TokenNew.listen, deployed.
  destruct (TokenNew.send env TokenNew.factory_tx (TokenNew.mkSendOptions from gas))
    as [h addr | [h |] e]; reflexivity.
Qed.

Lemma deploy_token_run from tfa name sym dec te ctx :
  let tx := TokenNew.token_tx (TokenNew.token_arguments env ctx tfa name sym dec te) in
  TokenNew.deploy_token env from tfa name sym dec te (start ctx) =
  match TokenNew.estimateGas env tx with
  | Thrown e => (Thrown e, mkTaskState ctx None None [TokenNew.EstimateGas tx])
  | Returned estimatedGas =>
      match TokenNew.getRecommendedGasLimit env estimatedGas with
      | Thrown e => (Thrown e, mkTaskState ctx None None [TokenNew.EstimateGas tx])
      | Returned gas =>
          let opts := TokenNew.mkSendOptions from gas in
          deployed tx opts TokenNew.set_tokenAddress TokenNew.set_tokenTxHash
                   (TokenNew.send env tx opts) ctx
      end
  end.
Proof.
  intros tx. unfold TokenNew.deploy_token. unfold_task.
  fold (TokenNew.token_tx (TokenNew.token_arguments env ctx tfa name sym dec te)). fold tx.
  destruct (TokenNew.estimateGas env tx) as [g |]; [| reflexivity].
  destruct (TokenNew.getRecommendedGasLimit env g) as [gas |]; [| reflexivity].
  unfold TokenNew.listen, deployed.
  destruct (TokenNew.send env tx (TokenNew.mkSendOptions from gas))
    as [h addr | [h |] e]; reflexivity.
Qed.

End TokenStepRuns.

(** X11. Each of the two deployment steps asks for a gas estimate first
    and sends at most one deployment, its own, with the first account as
    sender and the recommended limit of that estimate as gas; when the
    estimate or the limit cannot be had, that error is the step's error,
    nothing is sent and the context is untouched. *)
Theorem deployments_are_sent_only_after_gas env from tfa name sym dec te ctx :
  let sent_within (tx : TokenNew.DeployTx)
        (out : Outcome unit * TaskState TokenNew.Ctx TokenNew.Effect) :=
    hd_error (ts_effects (snd out)) = Some (TokenNew.EstimateGas tx) /\
    length (sent (ts_effects (snd out))) <= 1 /\
    (forall tx' opts,
        In (tx', opts) (sent (ts_effects (snd out))) ->
        tx' = tx /\ TokenNew.from opts = from /\
        exists estimatedGas,
          TokenNew.estimateGas env tx = Returned estimatedGas /\
          TokenNew.getRecommendedGasLimit env estimatedGas = Returned (TokenNew.gas opts)) /\
    (forall e,
        TokenNew.estimateGas env tx = Thrown e \/
        (exists estimatedGas,
            TokenNew.estimateGas env tx = Returned estimatedGas /\
            TokenNew.getRecommendedGasLimit env estimatedGas = Thrown e) ->
        fst out = Thrown e /\ sent (ts_effects (snd out)) = [] /\ ts_ctx (snd out) = ctx) in
  sent_within TokenNew.factory_tx (TokenNew.deploy_factory env from (start ctx)) /\
  sent_within (TokenNew.token_tx (TokenNew.token_arguments env ctx tfa name sym dec te))
              (TokenNew.deploy_token env from tfa name sym dec te (start ctx)).
Proof.
  intros sent_within.
  assert (forall tx on_receipt on_hash out,
             out = match TokenNew.estimateGas env tx with
                   | Thrown e => (Thrown e, mkTaskState ctx None None [TokenNew.EstimateGas tx])
                   | Returned estimatedGas =>
                       match TokenNew.getRecommendedGasLimit env estimatedGas with
                       | Thrown e =>
                           (Thrown e, mkTaskState ctx None None [TokenNew.EstimateGas tx])
                       | Returned gas =>
                           deployed tx (TokenNew.mkSendOptions from gas) on_receipt on_hash
                                    (TokenNew.send env tx (TokenNew.mkSendOptions from gas))
                                    ctx
                       end
                   end ->
             sent_within tx out) as G.
  { intros tx on_receipt on_hash out ->. unfold sent_within.
    destruct (TokenNew.estimateGas env tx) as [g | e0] eqn:Eg.
    - destruct (TokenNew.getRecommendedGasLimit env g) as [gas | e0] eqn:El.
      + unfold deployed.
        destruct (TokenNew.send env tx (TokenNew.mkSendOptions from gas))
          as [h addr | [h |] e0]; simpl;
          (split; [reflexivity |]); (split; [lia |]);
          (split;
           [ intros tx' opts [H | []]; injection H as <- <-;
             split; [reflexivity | split; [reflexivity |]];
             exists g; split; [reflexivity | exact El]
           | intros e [H | (g' & Hg & Hl)];
             [ discriminate H
             | injection Hg as <-; rewrite El in Hl; discriminate Hl ] ]).
      + simpl. split; [reflexivity |]. split; [lia |]. split; [intros tx' opts [] |].
        intros e [H | (g' & Hg & Hl)]; [discriminate H |].
        injection Hg as <-. rewrite El in Hl. injection Hl as <-. repeat split.
    - simpl. split; [reflexivity |]. split; [lia |]. split; [intros tx' opts [] |].
      intros e [H | (g' & Hg & _)]; [| discriminate Hg].
      injection H as <-. repeat split. }
  split.
  - apply (G _ TokenNew.set_factoryAddress TokenNew.set_factoryTxHash).
    apply deploy_factory_run.
  - apply (G _ TokenNew.set_tokenAddress TokenNew.set_tokenTxHash).
    apply deploy_token_run.
Qed.

(** X12. Once the gas limit is known, the sent deployment decides both
    steps: mined, the step returns with the transaction hash and the
    receipt's contract address recorded in the context; errored, the step
    throws that error, the address is left as it was, and the transaction
    hash is recorded only if it had been emitted. The factory step writes
    only the factory properties, the token step only the token ones. *)
Theorem deployments_record_hash_and_address
    env from tfa name sym dec te ctx estimatedGas estimatedGas' gas gas' :
  let tx := TokenNew.token_tx (TokenNew.token_arguments env ctx tfa name sym dec te) in
  TokenNew.estimateGas env TokenNew.factory_tx = Returned estimatedGas ->
  TokenNew.getRecommendedGasLimit env estimatedGas = Returned gas ->
  TokenNew.estimateGas env tx = Returned estimatedGas' ->
  TokenNew.getRecommendedGasLimit env estimatedGas' = Returned gas' ->
  let factory := TokenNew.deploy_factory env from (start ctx) in
  let token := TokenNew.deploy_token env from tfa name sym dec te (start ctx) in
  match TokenNew.send env TokenNew.factory_tx (TokenNew.mkSendOptions from gas) with
  | TokenNew.Mined h address =>
      fst factory = Returned tt /\
      TokenNew.factoryAddress (ts_ctx (snd factory)) = Some address /\
      TokenNew.factoryTxHash (ts_ctx (snd factory)) = Some h
  | TokenNew.Errored h e =>
      fst factory = Thrown e /\
      TokenNew.factoryAddress (ts_ctx (snd factory)) = TokenNew.factoryAddress ctx /\
      TokenNew.factoryTxHash (ts_ctx (snd factory)) =
        match h with Some h => Some h | None => TokenNew.factoryTxHash ctx end
  end /\
  TokenNew.tokenAddress (ts_ctx (snd factory)) = TokenNew.tokenAddress ctx /\
  TokenNew.tokenTxHash (ts_ctx (snd factory)) = TokenNew.tokenTxHash ctx /\
  match TokenNew.send env tx (TokenNew.mkSendOptions from gas') with
  | TokenNew.Mined h address =>
      fst token = Returned tt /\
      TokenNew.tokenAddress (ts_ctx (snd token)) = Some address /\
      TokenNew.tokenTxHash (ts_ctx (snd token)) = Some h
  | TokenNew.Errored h e =>
      fst token = Thrown e /\
      TokenNew.tokenAddress (ts_ctx (snd token)) = TokenNew.tokenAddress ctx /\
      TokenNew.tokenTxHash (ts_ctx (snd token)) =
        match h with Some h => Some h | None => TokenNew.tokenTxHash ctx end
  end /\
  TokenNew.factoryAddress (ts_ctx (snd token)) = TokenNew.factoryAddress ctx /\
  TokenNew.factoryTxHash (ts_ctx (snd token)) = TokenNew.factoryTxHash ctx.
Proof.
  intros tx Hg Hl Hg' Hl' factory token. subst factory token.
  rewrite deploy_factory_run, Hg, Hl.
  rewrite (deploy_token_run env from tfa name sym dec te ctx). fold tx. rewrite Hg', Hl'.
  cbv zeta. unfold deployed.
  destruct (TokenNew.send env TokenNew.factory_tx (TokenNew.mkSendOptions from gas))
    as [h addr | [h |] e];
    destruct (TokenNew.send env tx (TokenNew.mkSendOptions from gas'))
      as [h' addr' | [h' |] e']; simpl; repeat split.
Qed.

Lemma deployments_record_hash_and_address_witness :
  TokenNew.factoryAddress
    (ts_ctx (snd (TokenNew.deploy_factory (token_env 5) (VStr dao_address)
                    (start TokenNew.empty_ctx)))) = Some factory_address.
Proof.
  exact (proj1 (proj2 (proj1
           (deployments_record_hash_and_address
              (token_env 5) (VStr dao_address) None "Test Token" "TST" (VNum 18) (VBool true)
              TokenNew.empty_ctx 1000000%Z 1000000%Z 1500000%Z 1500000%Z
              eq_refl eq_refl eq_refl eq_refl)))).
Defined.

Section TokenRuns.
Variable env : TokenNew.Env.
Variable from : Val.
Variable tfa : option string.
Variables name sym : string.
Variables dec te : Val.

Lemma token_tasks_steps :
  TokenNew.tasks env from tfa name sym dec te =
  [factory_step env from tfa; token_step env from tfa name sym dec te].
Proof. reflexivity. Qed.

(** The factory step in a run: passed over on a valid address, run on
    the context it finds otherwise. *)
Lemma factory_entry en :
  entry_of (factory_step env from tfa) en ->
  (TokenNew.isAddress env (of_opt tfa) = true /\
   en_effects en = [] /\ en_after en = en_before en /\
   forall e, en_status en <> Failed e) \/
  (TokenNew.isAddress env (of_opt tfa) = false /\
   en_effects en = ts_effects (snd (TokenNew.deploy_factory env from (start (en_before en)))) /\
   en_after en = ts_ctx (snd (TokenNew.deploy_factory env from (start (en_before en)))) /\
   forall e,
     en_status en = Failed e <->
     fst (TokenNew.deploy_factory env from (start (en_before en))) = Thrown e).
Proof.
  intros [_ [(Hd & Hs & Ha & He) | (Hen & o & st & Hrun & Ha & He & Hs)]].
  - left. unfold is_enabled in Hd. simpl in Hd. unfold TokenNew.factory_enabled in Hd.
    apply negb_false_iff in Hd. rewrite Hs. repeat split; try assumption. discriminate.
  - right. unfold is_enabled in Hen. simpl in Hen. unfold TokenNew.factory_enabled in Hen.
    apply negb_true_iff in Hen. simpl in Hrun. rewrite Hrun. simpl.
    repeat split; try assumption.
    + intros H. rewrite Hs in H. destruct o; [| now injection H as ->].
      exfalso. exact (status_of_not_failed _ _ H).
    + intros ->. exact Hs.
Qed.

Lemma token_entry en :
  entry_of (token_step env from tfa name sym dec te) en ->
  let out := TokenNew.deploy_token env from tfa name sym dec te (start (en_before en)) in
  en_effects en = ts_effects (snd out) /\
  en_after en = ts_ctx (snd out) /\
  forall e, en_status en = Failed e <-> fst out = Thrown e.
Proof.
  intros E out. subst out.
  destruct (entry_of_always (token_step env from tfa name sym dec te) en eq_refl E)
    as (o & st & Hrun & Ha & He & Hs).
  simpl in Hrun. rewrite Hrun. simpl. repeat split; try assumption.
  - intros H. rewrite Hs in H. destruct o; [| now injection H as ->].
    exfalso. exact (status_of_not_failed _ _ H).
  - intros ->. exact Hs.
Qed.

(** A deployment step that did not throw had its deployment mined. *)
Lemma deploy_factory_not_thrown ctx :
  (forall e, fst (TokenNew.deploy_factory env from (start ctx)) <> Thrown e) ->
  exists gas h address,
    TokenNew.send env TokenNew.factory_tx (TokenNew.mkSendOptions from gas)
    = TokenNew.Mined h address /\
    snd (TokenNew.deploy_factory env from (start ctx)) =
    mkTaskState (TokenNew.set_factoryAddress address (TokenNew.set_factoryTxHash h ctx))
                None (Some waiting)
                [TokenNew.EstimateGas TokenNew.factory_tx;
                 TokenNew.Send TokenNew.factory_tx (TokenNew.mkSendOptions from gas)].
Proof.
  rewrite deploy_factory_run.
  destruct (TokenNew.estimateGas env TokenNew.factory_tx) as [g | e];
    [| intros N; exfalso; exact (N e eq_refl)].
  destruct (TokenNew.getRecommendedGasLimit env g) as [gas | e];
    [| intros N; exfalso; exact (N e eq_refl)].
  cbv zeta. unfold deployed.
  destruct (TokenNew.send env TokenNew.factory_tx (TokenNew.mkSendOptions from gas))
    as [h addr | [h |] e] eqn:Hsend; intros N;
    try (exfalso; exact (N e eq_refl)).
  exists gas, h, addr. split; [exact Hsend | reflexivity].
Qed.

Lemma deploy_token_not_thrown ctx :
  let tx := TokenNew.token_tx (TokenNew.token_arguments env ctx tfa name sym dec te) in
  (forall e, fst (TokenNew.deploy_token env from tfa name sym dec te (start ctx))
             <> Thrown e) ->
  exists gas h address,
    TokenNew.send env tx (TokenNew.mkSendOptions from gas) = TokenNew.Mined h address /\
    snd (TokenNew.deploy_token env from tfa name sym dec te (start ctx)) =
    mkTaskState (TokenNew.set_tokenAddress address (TokenNew.set_tokenTxHash h ctx))
                None (Some waiting)
                [TokenNew.EstimateGas tx;
                 TokenNew.Send tx (TokenNew.mkSendOptions from gas)].
Proof.
  intros tx. rewrite (deploy_token_run env from tfa name sym dec te ctx). fold tx.
  destruct (TokenNew.estimateGas env tx) as [g | e];
    [| intros N; exfalso; exact (N e eq_refl)].
  destruct (TokenNew.getRecommendedGasLimit env g) as [gas | e];
    [| intros N; exfalso; exact (N e eq_refl)].
  cbv zeta. unfold deployed.
  destruct (TokenNew.send env tx (TokenNew.mkSendOptions from gas))
    as [h addr | [h |] e] eqn:Hsend; intros N;
    try (exfalso; exact (N e eq_refl)).
  exists gas, h, addr. split; [exact Hsend | reflexivity].
Qed.

(** A token-new run that is not rejected: what was sent and what the
    context holds at the end. *)
Lemma token_run_resolved ctx0 :
  let run := run_steps (TokenNew.tasks env from tfa name sym dec te) ctx0 in
  run_rejected run = None ->
  exists args gas h address,
    TokenNew.send env (TokenNew.token_tx args) (TokenNew.mkSendOptions from gas)
    = TokenNew.Mined h address /\
    TokenNew.tokenAddress (run_ctx run) = Some address /\
    TokenNew.tokenTxHash (run_ctx run) = Some h /\
    ((TokenNew.isAddress env (of_opt tfa) = true /\
      args = TokenNew.token_arguments env ctx0 tfa name sym dec te /\
      sent (requests run) = [(TokenNew.token_tx args, TokenNew.mkSendOptions from gas)] /\
      TokenNew.factoryAddress (run_ctx run) = TokenNew.factoryAddress ctx0 /\
      TokenNew.factoryTxHash (run_ctx run) = TokenNew.factoryTxHash ctx0) \/
     (TokenNew.isAddress env (of_opt tfa) = false /\
      exists fgas fh faddress,
        TokenNew.send env TokenNew.factory_tx (TokenNew.mkSendOptions from fgas)
        = TokenNew.Mined fh faddress /\
        args = TokenNew.token_arguments env
                 (TokenNew.set_factoryAddress faddress (TokenNew.set_factoryTxHash fh ctx0))
                 tfa name sym dec te /\
        sent (requests run) =
          [(TokenNew.factory_tx, TokenNew.mkSendOptions from fgas);
           (TokenNew.token_tx args, TokenNew.mkSendOptions from gas)] /\
        TokenNew.factoryAddress (run_ctx run) = Some faddress /\
        TokenNew.factoryTxHash (run_ctx run) = Some fh)).
Proof.
  intros run. subst run. rewrite token_tasks_steps.
  destruct (run_steps_head (factory_step env from tfa)
              [token_step env from tfa name sym dec te] ctx0)
    as (en0 & E0 & B0 & [(e & _ & ->) | (Hnf0 & ->)]); [discriminate |].
  destruct (run_steps_head (token_step env from tfa name sym dec te) [] (en_after en0))
    as (en1 & E1 & B1 & [(e & _ & ->) | (Hnf1 & ->)]); [discriminate |].
  intros _.
  destruct (token_entry en1 E1) as (He1 & Ha1 & Hs1).
  assert (forall e, fst (TokenNew.deploy_token env from tfa name sym dec te
                           (start (en_before en1))) <> Thrown e) as N1.
  { intros e H. apply Hs1 in H. exact (Hnf1 e H). }
  destruct (deploy_token_not_thrown (en_before en1) N1) as (gas & h & address & Hsend & Hst).
  rewrite Hst in He1, Ha1. simpl in He1, Ha1.
  exists (TokenNew.token_arguments env (en_before en1) tfa name sym dec te), gas, h, address.
  split; [exact Hsend |].
  unfold requests. simpl. rewrite He1, Ha1, app_nil_r.
  split; [reflexivity | split; [reflexivity |]].
  destruct (factory_entry en0 E0) as [(Hv & He0 & Ha0 & _) | (Hv & He0 & Ha0 & Hs0)].
  - left. rewrite He0, B1, Ha0, B0. repeat split. exact Hv.
  - right. split; [exact Hv |].
    assert (forall e, fst (TokenNew.deploy_factory env from (start (en_before en0)))
                      <> Thrown e) as N0.
    { intros e H. apply Hs0 in H. exact (Hnf0 e H). }
    destruct (deploy_factory_not_thrown (en_before en0) N0)
      as (fgas & fh & faddress & Hfsend & Hfst).
    rewrite Hfst in He0, Ha0. simpl in He0, Ha0.
    exists fgas, fh, faddress.
    rewrite He0, B1, Ha0, B0. repeat split. exact Hfsend.
Qed.

End TokenRuns.

(** X13. When the factory address is not valid and the factory step
    throws, the token-new run is rejected with that error after that one
    step: every request made was the factory step's own, so the token
    deployment was neither estimated nor sent, and the context is the one
    the factory step left. *)
Theorem factory_failure_stops_the_token_deployment
    env from tfa name sym dec te ctx0 e :
  TokenNew.isAddress env (of_opt tfa) = false ->
  fst (TokenNew.deploy_factory env from (start ctx0)) = Thrown e ->
  let run := run_steps (TokenNew.tasks env from tfa name sym dec te) ctx0 in
  run_rejected run = Some e /\
  length (run_log run) = 1 /\
  requests run = ts_effects (snd (TokenNew.deploy_factory env from (start ctx0))) /\
  Forall (fun request =>
            request = TokenNew.EstimateGas TokenNew.factory_tx \/
            exists opts, request = TokenNew.Send TokenNew.factory_tx opts)
         (requests run) /\
  run_ctx run = ts_ctx (snd (TokenNew.deploy_factory env from (start ctx0))) /\
  TokenNew.tokenAddress (run_ctx run) = TokenNew.tokenAddress ctx0 /\
  TokenNew.tokenTxHash (run_ctx run) = TokenNew.tokenTxHash ctx0.
Proof.
  intros Hinvalid Hthrown run. subst run. rewrite token_tasks_steps.
  destruct (TokenNew.deploy_factory env from (start ctx0)) as [o st] eqn:Hrun.
  simpl in Hthrown. subst o.
  assert (is_enabled (factory_step env from tfa) ctx0 = true) as Hen.
  { unfold is_enabled. simpl. unfold TokenNew.factory_enabled. now rewrite Hinvalid. }
  rewrite (run_steps_thrown (factory_step env from tfa) _ ctx0 e st Hen Hrun).
  unfold requests. simpl. rewrite app_nil_r.
  rewrite deploy_factory_run in Hrun.
  split; [reflexivity | split; [reflexivity | split; [reflexivity |]]].
  destruct (TokenNew.estimateGas env TokenNew.factory_tx) as [g |].
  - destruct (TokenNew.getRecommendedGasLimit env g) as [gas |].
    + unfold deployed in Hrun.
      destruct (TokenNew.send env TokenNew.factory_tx (TokenNew.mkSendOptions from gas))
        as [h addr | [h |] e0]; inversion Hrun; subst; simpl;
        (split;
         [ constructor;
           [left; reflexivity | constructor; [right; eexists; reflexivity | constructor]]
         | repeat split ]).
    + inversion Hrun; subst; simpl.
      split; [constructor; [left; reflexivity | constructor] | repeat split].
  - inversion Hrun; subst; simpl.
    split; [constructor; [left; reflexivity | constructor] | repeat split].
Qed.

Lemma factory_failure_stops_witness :
  let env :=
    TokenNew.mkEnv zero_address (Returned [dao_address]) (Returned 5%Z) (fun v => v)
      (fun _ => false) (fun _ => Thrown (new_Error "out of gas")) (fun g => Returned g)
      (fun _ _ => TokenNew.Mined "0xaa" token_address) in
  requests (run_steps (TokenNew.tasks env (VStr dao_address) None "Test Token" "TST"
                                      (VNum 18) (VBool true)) TokenNew.empty_ctx) =
  [TokenNew.EstimateGas TokenNew.factory_tx].
Proof.
  intros env.
  exact (proj1 (proj2 (proj2
           (factory_failure_stops_the_token_deployment
              env (VStr dao_address) None "Test Token" "TST" (VNum 18) (VBool true)
              TokenNew.empty_ctx (new_Error "out of gas") eq_refl eq_refl)))).
Defined.

(** X14. A token-new run that is not rejected had the token deployment
    mined, and its context ends with that deployment's contract address
    and transaction hash. With a valid factory address it sent that one
    deployment only, built on the context it started with, and left the
    factory properties alone; otherwise it sent two, the factory's first,
    mined too, whose address and hash are in the context and on which the
    token's arguments were built. *)
Theorem resolved_token_run_deployed_the_token env from tfa name sym dec te ctx0 :
  let run := run_steps (TokenNew.tasks env from tfa name sym dec te) ctx0 in
  run_rejected run = None ->
  exists args gas h address,
    TokenNew.send env (TokenNew.token_tx args) (TokenNew.mkSendOptions from gas)
    = TokenNew.Mined h address /\
    TokenNew.tokenAddress (run_ctx run) = Some address /\
    TokenNew.tokenTxHash (run_ctx run) = Some h /\
    ((TokenNew.isAddress env (of_opt tfa) = true /\
      args = TokenNew.token_arguments env ctx0 tfa name sym dec te /\
      sent (requests run) = [(TokenNew.token_tx args, TokenNew.mkSendOptions from gas)] /\
      TokenNew.factoryAddress (run_ctx run) = TokenNew.factoryAddress ctx0 /\
      TokenNew.factoryTxHash (run_ctx run) = TokenNew.factoryTxHash ctx0) \/
     (TokenNew.isAddress env (of_opt tfa) = false /\
      exists fgas fh faddress,
        TokenNew.send env TokenNew.factory_tx (TokenNew.mkSendOptions from fgas)
        = TokenNew.Mined fh faddress /\
        args = TokenNew.token_arguments env
                 (TokenNew.set_factoryAddress faddress (TokenNew.set_factoryTxHash fh ctx0))
                 tfa name sym dec te /\
        sent (requests run) =
          [(TokenNew.factory_tx, TokenNew.mkSendOptions from fgas);
           (TokenNew.token_tx args, TokenNew.mkSendOptions from gas)] /\
        TokenNew.factoryAddress (run_ctx run) = Some faddress /\
        TokenNew.factoryTxHash (run_ctx run) = Some fh)).
Proof.
  intros run Hresolved.
  destruct (token_run_resolved env from tfa name sym dec te ctx0 Hresolved)
    as (args & gas & h & address & Hsend & Haddress & Hhash & Hfactory).
  exists args, gas, h, address.
  split; [exact Hsend | split; [exact Haddress | split; [exact Hhash |]]].
  destruct Hfactory as [Hvalid | Hdeployed]; [left | right]; assumption.
Qed.

Lemma resolved_token_run_witness :
  exists args gas h address,
    TokenNew.send (token_env 1) (TokenNew.token_tx args)
                  (TokenNew.mkSendOptions (VStr dao_address) gas)
    = TokenNew.Mined h address /\
    TokenNew.tokenAddress
      (run_ctx (run_steps
                  (TokenNew.tasks (token_env 1) (VStr dao_address)
                     (Some TokenNew.MAINNET_MINIME_TOKEN_FACTORY)
                     "Test Token" "TST" (VNum 18) (VBool true))
                  TokenNew.empty_ctx)) = Some address.
Proof.
  destruct (resolved_token_run_deployed_the_token
              (token_env 1) (VStr dao_address) (Some TokenNew.MAINNET_MINIME_TOKEN_FACTORY)
              "Test Token" "TST" (VNum 18) (VBool true) TokenNew.empty_ctx eq_refl)
    as (args & gas & h & address & Hsend & Haddr & _).
  exists args, gas, h, address. split; assumption.
Defined.

(** X15. When the token-new handler reaches [process.exit()], it has
    reported, first, the contract address of the mined token deployment
    and that deployment's transaction hash; after them come the factory's
    address, not empty, and hash, of the factory deployment mined in this
    run, or nothing; and nothing when the factory address in use was
    valid. *)
Theorem token_handler_reports chalk_bold env a reports :
  token_handler chalk_bold (Returned env) a = Exited reports ->
  exists args opts h address factory_reports,
    TokenNew.send env (TokenNew.token_tx args) opts = TokenNew.Mined h address /\
    reports =
      [ Success ("Successfully deployed the token at " ++ chalk_bold address)%string;
        Info ("Token transaction hash: " ++ h)%string ] ++ factory_reports /\
    (factory_reports = [] \/
     exists fopts fh faddress,
       TokenNew.send env TokenNew.factory_tx fopts = TokenNew.Mined fh faddress /\
       faddress <> "" /\
       factory_reports =
         [ Success ("Successfully deployed the token factory at "
                    ++ chalk_bold faddress)%string;
           Info ("Token factory transaction hash: " ++ fh)%string ]) /\
    (forall chainId,
        TokenNew.getId env = Returned chainId ->
        TokenNew.isAddress env
          (of_opt (TokenNew.default_factory chainId (TokenNew.tokenFactoryAddress a))) = true ->
        factory_reports = []).
Proof.
  unfold token_handler, TokenNew.task.
  destruct (TokenNew.getAccounts env) as [accounts | e]; [| discriminate].
  destruct (TokenNew.getId env) as [chainId | e]; [| discriminate].
  cbv zeta.
  set (from := of_opt (hd_error accounts)).
  set (tfa := TokenNew.default_factory chainId (TokenNew.tokenFactoryAddress a)).
  set (te := TokenNew.parseStringIfPossible env (TokenNew.transferEnabled a)).
  pose proof (token_run_resolved env from tfa (TokenNew.tokenName a) (TokenNew.symbol a)
                (TokenNew.decimalUnits a) te TokenNew.empty_ctx) as R.
  cbv zeta in R.
  destruct (run_rejected
              (run_steps (TokenNew.tasks env from tfa (TokenNew.tokenName a)
                            (TokenNew.symbol a) (TokenNew.decimalUnits a) te)
                         TokenNew.empty_ctx)) as [e |]; [discriminate |].
  destruct (R eq_refl) as (args & gas & h & address & Hsend & Haddr & Hhash & Hfactory).
  set (ctx := run_ctx (run_steps (TokenNew.tasks env from tfa (TokenNew.tokenName a)
                                    (TokenNew.symbol a) (TokenNew.decimalUnits a) te)
                                 TokenNew.empty_ctx)) in *.
  clearbody ctx.
  intros H. injection H as <-.
  unfold token_reports. rewrite Haddr, Hhash. simpl template.
  exists args, (TokenNew.mkSendOptions from gas), h, address.
  destruct Hfactory as [(Hv & _ & _ & Hfa & _) | (Hv & fgas & fh & faddress & Hfsend & _ & _ & Hfa & Hfh)].
  - exists []. rewrite Hfa. simpl.
    split; [exact Hsend | split; [reflexivity | split; [now left |]]].
    intros c Hc _. reflexivity.
  - rewrite Hfa, Hfh. simpl of_opt. simpl truthy. simpl template.
    destruct (faddress =? "") eqn:Hempty; simpl negb; cbv iota.
    + exists []. split; [exact Hsend | split; [reflexivity | split; [now left |]]].
      intros c Hc _. reflexivity.
    + eexists. split; [exact Hsend | split; [reflexivity | split]].
      * right. exists (TokenNew.mkSendOptions from fgas), fh, faddress.
        apply String.eqb_neq in Hempty. repeat split; assumption.
      * intros c Hc Hvalid. injection Hc as <-. fold tfa in Hvalid. congruence.
Qed.

Lemma token_handler_reports_witness :
  token_handler (fun s => s) (Returned (token_env 5)) (token_args None) =
  Exited
    [ Success "Successfully deployed the token at 0x5555555555555555555555555555555555555555";
      Info "Token transaction hash: 0xaa02";
      Success "Successfully deployed the token factory at 0x4444444444444444444444444444444444444444";
      Info "Token factory transaction hash: 0xaa01" ].
Proof.
  destruct (token_handler_reports (fun s => s) (token_env 5) (token_args None) _ eq_refl)
    as (_ & _ & _ & _ & _ & _).
  reflexivity.
Defined.

Lemma find_same {A : Type} (f g : A -> bool) (l : list A) :
  (forall x, f x = g x) -> find f l = find g l.
Proof.
  intros H. induction l as [| x l IH]; simpl; [reflexivity |].
  now rewrite H, IH.
Qed.

(** X16. The decode step reads the DAO address only up to the case of
    its letters: run with two spellings of one address that
    [addressesEqual] equates, it ends the same way, on the same context. *)
Theorem decode_step_ignores_the_case_of_the_dao env dao dao' ctx :
  Install.addressesEqual dao dao' = true ->
  (forall logTopic l,
      Install.is_deploy_log dao logTopic l = Install.is_deploy_log dao' logTopic l) /\
  Install.fetching_deployed_app env dao (start ctx) =
  Install.fetching_deployed_app env dao' (start ctx).
Proof.
  intros H. unfold Install.addressesEqual in H. apply String.eqb_eq in H.
  assert (forall logTopic l,
             Install.is_deploy_log dao logTopic l = Install.is_deploy_log dao' logTopic l) as S.
  { intros logTopic l. unfold Install.is_deploy_log, Install.addressesEqual.
    now rewrite H. }
  split; [exact S |].
  rewrite !fetching_deployed_app_run.
  destruct (find Install.is_NewAppProxy (Install.kernelABI env)) as [logABI |]; [| reflexivity].
  destruct (Install.receipt ctx) as [rc |]; [| reflexivity].
  rewrite (find_same _ _ (Install.logs rc)
             (S (Install.sha3 env (Install.logSignature logABI)))).
  reflexivity.
Qed.

Lemma decode_step_ignores_case_witness :
  Install.fetching_deployed_app
    (install_env base_v2 (Some voting_roles) [deploy_log]) dao_address
    (start (ctx_with_receipt [deploy_log])) =
  Install.fetching_deployed_app
    (install_env base_v2 (Some voting_roles) [deploy_log])
    "0x5B6A3301A67A4BFDA9D3A528CAD34CAC6E7F8070"
    (start (ctx_with_receipt [deploy_log])).
Proof.
  exact (proj2 (decode_step_ignores_the_case_of_the_dao
                  (install_env base_v2 (Some voting_roles) [deploy_log])
                  dao_address "0x5B6A3301A67A4BFDA9D3A528CAD34CAC6E7F8070"
                  (ctx_with_receipt [deploy_log]) eq_refl)).
Defined.

Section RepoInvariant.
Variable env : Install.Env.
Variables dao apmRepo : string.
Variable a : Install.Args.

(** No step after the first writes [ctx.repo]. *)
Lemma later_steps_keep_repo s :
  In s [check_step env dao apmRepo; deploy_step env dao a; decode_step env dao;
        permissions_step env dao a] ->
  forall ctx o st, task s (start ctx) = (o, st) -> Install.repo (ts_ctx st) = Install.repo ctx.
Proof.
  intros [<- | [<- | [<- | [<- | []]]]] ctx o st; simpl.
  - intros H. now rewrite (checking_installed_version_keeps_ctx env dao apmRepo _ _ _ H).
  - rewrite deploying_app_instance_run.
    destruct (Install.repo ctx) as [r |] eqn:Hr; [| intros H; inversion H; exact Hr].
    destruct (Install.encodeInitPayload env _ _ _) as [p | e];
      [| intros H; inversion H; exact Hr].
    cbv zeta.
    destruct (p =? "0x"); destruct (Install.execTask env dao _);
      intros H; inversion H; exact Hr.
  - rewrite fetching_deployed_app_run.
    destruct (find Install.is_NewAppProxy _); [| intros H; inversion H; reflexivity].
    destruct (Install.receipt ctx) as [rc |]; [| intros H; inversion H; reflexivity].
    destruct (find _ (Install.logs rc)); intros H; inversion H; reflexivity.
  - intros H. destruct (set_permissions_state env dao _ _ _ H) as [_ [-> | [acc ->]]];
      reflexivity.
Qed.

End RepoInvariant.

(** X17. In every install run, each step after the first finds in
    [ctx.repo] the repo the resolver returned, and leaves it there: the
    later steps never run without a repo and never replace it. *)
Theorem later_install_steps_find_the_resolved_repo env dao apmRepo a ctx0 k en :
  nth_error (run_log (run_steps (Install.tasks env dao apmRepo a) ctx0)) (S k) = Some en ->
  exists r,
    Install.getRepo env apmRepo (Install.apmRepoVersion a) = Returned r /\
    Install.repo (en_before en) = Some r /\
    Install.repo (en_after en) = Some r.
Proof.
  revert en. induction k as [| k IH]; intros en Hk.
  - destruct (run_log_next _ _ _ _ Hk) as (en0 & H0 & Hb & Hnf).
    destruct (run_log_entry _ _ _ _ H0) as (s0 & Hs0 & E0).
    destruct (run_log_entry _ _ _ _ Hk) as (s1 & Hs1 & E1).
    rewrite install_tasks_steps in Hs0, Hs1. simpl in Hs0, Hs1.
    injection Hs0 as <-. injection Hs1 as <-.
    destruct (resolve_entry env apmRepo a en0 E0) as [_ [[e He] | (r & Hget & Ha)]];
      [exfalso; exact (Hnf e He) |].
    exists r. split; [exact Hget |].
    assert (Install.repo (en_before en) = Some r) as Hr by (rewrite Hb, Ha; reflexivity).
    split; [exact Hr |]. rewrite <- Hr.
    apply (entry_preserves Install.repo (check_step env dao apmRepo) en); [| exact E1].
    apply (later_steps_keep_repo env dao apmRepo a). simpl. auto.
  - destruct (run_log_next _ _ _ _ Hk) as (en' & H' & Hb & _).
    destruct (IH en' H') as (r & Hget & _ & Ha').
    destruct (run_log_entry _ _ _ _ Hk) as (s & Hs & E).
    exists r. split; [exact Hget |].
    assert (Install.repo (en_before en) = Some r) as Hr by (now rewrite Hb).
    split; [exact Hr |]. rewrite <- Hr.
    apply (entry_preserves Install.repo s en); [| exact E].
    apply (later_steps_keep_repo env dao apmRepo a).
    rewrite install_tasks_steps in Hs. simpl in Hs.
    destruct k as [| [| [| k]]]; simpl in Hs; try (injection Hs as <-; simpl; auto).
    destruct k; discriminate Hs.
Qed.

Lemma later_install_steps_witness :
  match nth_error
          (run_log (run_steps
                      (Install.tasks (install_env base_v2 (Some voting_roles) [deploy_log])
                                     dao_address "voting.aragonpm.eth"
                                     (install_args (Some "open")))
                      Install.empty_ctx)) 1
  with
  | Some en => Install.repo (en_before en) = Some (voting_repo (Some voting_roles))
  | None => False
  end.
Proof.
  pose proof (later_install_steps_find_the_resolved_repo
                (install_env base_v2 (Some voting_roles) [deploy_log])
                dao_address "voting.aragonpm.eth" (install_args (Some "open"))
                Install.empty_ctx 0) as H.
  destruct (nth_error _ 1) as [en |] eqn:E.
  - destruct (H en eq_refl) as (r & Hget & Hr & _).
    injection Hget as <-. exact Hr.
  - vm_compute in E. discriminate E.
Defined.

End Extras.
